(** * Field and dependency extraction of Tableau workbooks

    A shallow embedding of [extractDataFromTwb], [extractDependencies] and
    [analyzeDependencies] (the field extraction engine of the workbook
    tools), together with the properties of the engine's specification.

    Conventions of the embedding.
    - A JavaScript string is a [string]; characters are ASCII code units,
      so that [toLowerCase] and the case folding of the [i] flag of regular
      expressions are the ASCII ones.
    - [null] and an absent member ([undefined]) of an object are [None].
    - [Array.prototype.sort] is a stable insertion sort driven by the
      comparator; for a consistent comparator every engine returns this list.
    - A [Map] is an association list in insertion order, a [Set] is a list.
    - [new RegExp] is the one operation of the engine that can throw; the
      functions that build regular expressions return a [result]. *)

From Stdlib Require Import String Ascii List ZArith Bool Arith Lia Permutation.
From Stdlib Require Import DecimalString Sorted OrderedTypeEx.
Import ListNotations.
Local Set Warnings "-register-all".
Open Scope string_scope.
Open Scope list_scope.

(* ================================================================== *)
(** ** Strings and the JavaScript operators the engine uses           *)
(* ================================================================== *)

Module JS.

(** Errors of the engine: a pattern handed to [new RegExp] that is not in the
    fragment of literal patterns (plain characters and identity escapes);
    outside of it the constructor may throw a SyntaxError, or build an
    expression that is no literal match. *)
Inductive error := PatternNotLiteral (source : string).

Inductive result (A : Type) :=
| Ok (a : A)
| Err (e : error).
Arguments Ok {A} a.
Arguments Err {A} e.

Definition bind {A B} (r : result A) (k : A -> result B) : result B :=
  match r with
  | Ok a => k a
  | Err e => Err e
  end.

Notation "x <- r ;; k" := (bind r (fun x => k))
  (at level 61, r at next level, right associativity).

(** Truthiness of a value that is a string or [null]. *)
Definition truthy (v : option string) : bool :=
  match v with
  | Some s => negb (s =? "")
  | None => false
  end.

(** [a || b]. *)
Definition or_else (a b : option string) : option string :=
  if truthy a then a else b.

(** [a || b] where [b] is an expression that is always a string. *)
Definition or_str (a : option string) (b : string) : string :=
  match a with
  | Some s => if s =? "" then b else s
  | None => b
  end.

(** [`${v}`] : the string conversion of a template literal. *)
Definition tmpl (v : option string) : string :=
  match v with
  | Some s => s
  | None => "null"
  end.

(** [`${n}`] for a counter. *)
Definition string_of_nat (n : nat) : string :=
  NilEmpty.string_of_uint (Nat.to_uint n).

(** [a === b] for a nullable string against a string literal. *)
Definition eq_lit (a : option string) (b : string) : bool :=
  match a with
  | Some s => s =? b
  | None => false
  end.

Definition opt_eqb (a b : option string) : bool :=
  match a, b with
  | Some x, Some y => x =? y
  | None, None => true
  | _, _ => false
  end.

Definition is_upper (c : ascii) : bool :=
  let n := nat_of_ascii c in (65 <=? n)%nat && (n <=? 90)%nat.

Definition is_lower (c : ascii) : bool :=
  let n := nat_of_ascii c in (97 <=? n)%nat && (n <=? 122)%nat.

Definition lower_char (c : ascii) : ascii :=
  if is_upper c then ascii_of_nat (nat_of_ascii c + 32) else c.

(** The canonical form of a character under the [i] flag: its upper case. *)
Definition canon (c : ascii) : ascii :=
  if is_lower c then ascii_of_nat (nat_of_ascii c - 32) else c.

Fixpoint map_string (f : ascii -> ascii) (s : string) : string :=
  match s with
  | EmptyString => EmptyString
  | String c r => String (f c) (map_string f r)
  end.

Definition toLowerCase (s : string) : string := map_string lower_char s.

(** Equality of two strings under the [i] flag. *)
Definition eq_ci (a b : string) : bool :=
  map_string canon a =? map_string canon b.

Fixpoint string_rev (s : string) : string :=
  match s with
  | EmptyString => EmptyString
  | String c r => string_rev r ++ String c EmptyString
  end.

Fixpoint drop (n : nat) (s : string) : string :=
  match n, s with
  | O, _ => s
  | S n', EmptyString => EmptyString
  | S n', String _ r => drop n' r
  end.

Fixpoint take (n : nat) (s : string) : string :=
  match n, s with
  | O, _ => EmptyString
  | S n', EmptyString => EmptyString
  | S n', String c r => String c (take n' r)
  end.

Definition is_bracket (c : ascii) : bool :=
  (c =? "[")%char || (c =? "]")%char.

Fixpoint filter_string (p : ascii -> bool) (s : string) : string :=
  match s with
  | EmptyString => EmptyString
  | String c r => if p c then String c (filter_string p r) else filter_string p r
  end.

Fixpoint forallb_string (p : ascii -> bool) (s : string) : bool :=
  match s with
  | EmptyString => true
  | String c r => p c && forallb_string p r
  end.

(** [s.startsWith(p)]. *)
Fixpoint startsWith (p s : string) : bool :=
  match p, s with
  | EmptyString, _ => true
  | String a p', String b s' => (a =? b)%char && startsWith p' s'
  | String _ _, EmptyString => false
  end.

Definition endsWith (p s : string) : bool :=
  startsWith (string_rev p) (string_rev s).

(** [s.substring(a, b)] for [a <= b]. *)
Definition substring_js (a b : nat) (s : string) : string :=
  take (b - a) (drop a s).

End JS.
Import JS.

(* ================================================================== *)
(** ** The document tree                                               *)
(* ================================================================== *)

(** A node of a parsed XML document: an element with its qualified name,
    its attributes and its children in document order, or a text node. *)
Inductive node :=
| Elem (nodeName : string) (attributes : list (string * string)) (childNodes : list node)
| Text (data : string).

Fixpoint assoc (k : string) (l : list (string * string)) : option string :=
  match l with
  | [] => None
  | (k', v) :: r => if k' =? k then Some v else assoc k r
  end.

(** [e.getAttribute(name)]: [null] when the attribute is absent. *)
Definition getAttribute (e : node) (name : string) : option string :=
  match e with
  | Elem _ attrs _ => assoc name attrs
  | Text _ => None
  end.

(** The descendants of a node in document order, each with its parent. *)
Fixpoint descendants (parent : node) : list (node * node) :=
  match parent with
  | Elem _ _ cs => flat_map (fun c => (c, parent) :: descendants c) cs
  | Text _ => []
  end.

Definition has_tag (tag : string) (n : node) : bool :=
  match n with
  | Elem t _ _ => t =? tag
  | Text _ => false
  end.

(** [e.getElementsByTagName(tag)], each element with its [parentElement]. *)
Definition getElementsByTagNameP (e : node) (tag : string) : list (node * node) :=
  filter (fun cp => has_tag tag (fst cp)) (descendants e).

Definition getElementsByTagName (e : node) (tag : string) : list node :=
  map fst (getElementsByTagNameP e tag).

(** [xmlDoc.getElementsByTagName(tag)]: the document element counts too. *)
Definition docElementsByTagName (root : node) (tag : string) : list node :=
  (if has_tag tag root then [root] else []) ++ getElementsByTagName root tag.

(** [e.textContent]. *)
Fixpoint textContent (n : node) : string :=
  match n with
  | Elem _ _ cs => String.concat "" (map textContent cs)
  | Text d => d
  end.

(* ================================================================== *)
(** ** Field records and edges                                         *)
(* ================================================================== *)

Inductive Category := Parameters | Calculated_Field | Default_Field.

(** One object of [allFields]. Members that some of the three object
    literals of the source leave out are optional. *)
Record FieldRecord := mkField {
  counter : nat;
  datasource_name : option string;
  datasource : option string;
  datasource_caption : string;
  alias : option string;
  field_calculation : option string;
  field_calculation_bk : option string;
  field_caption : option string;
  field_datatype : option string;
  field_def_agg : option string;
  field_desc : option string;
  field_hidden : option bool;
  field_id : string;
  field_is_nominal : option bool;
  field_is_ordinal : option bool;
  field_is_quantitative : option bool;
  field_name : option string;
  field_role : option string;
  field_type : option string;
  category : Category
}.

(** [field.field_calculation = formula]. *)
Definition set_field_calculation (f : FieldRecord) (formula : option string) : FieldRecord :=
  mkField (counter f) (datasource_name f) (datasource f) (datasource_caption f)
    (alias f) formula (field_calculation_bk f) (field_caption f)
    (field_datatype f) (field_def_agg f) (field_desc f) (field_hidden f)
    (field_id f) (field_is_nominal f) (field_is_ordinal f)
    (field_is_quantitative f) (field_name f) (field_role f) (field_type f)
    (category f).

(** An edge [{from, to}]; both members are captions, and a caption can be
    [null]. *)
Record DependencyEdge := mkEdge {
  from : option string;
  to : option string
}.

Record Output := mkOutput {
  fields : list FieldRecord;
  calcs : list FieldRecord;
  relationships : list DependencyEdge
}.

(* ================================================================== *)
(** ** Collecting the raw records (source lines 14-111)                *)
(* ================================================================== *)

Definition wrap (s : string) : string := "[" ++ s ++ "]".

(** The [<calculation>] child and its formula. *)
Definition calculationFormulaOf (col : node) : option string :=
  match getElementsByTagName col "calculation" with
  | calculationTag :: _ => getAttribute calculationTag "formula"
  | [] => None
  end.

(** The text of [<desc><formatted-text><run>]. *)
Definition descriptionOf (col : node) : option string :=
  match getElementsByTagName col "desc" with
  | descTag :: _ =>
      match getElementsByTagName descTag "formatted-text" with
      | ft :: _ =>
          match getElementsByTagName ft "run" with
          | descriptionElement :: _ => Some (textContent descriptionElement)
          | [] => None
          end
      | [] => None
      end
  | [] => None
  end.

(** [col.parentElement.nodeName === 'datasource' &&
     col.parentElement.getAttribute('name')?.toLowerCase() === 'parameters'] *)
Definition parentIsParameters (parent : node) : bool :=
  has_tag "datasource" parent &&
  match getAttribute parent "name" with
  | Some n => toLowerCase n =? "parameters"
  | None => false
  end.

(** The object literal built for a [<column>] (lines 30-78). *)
Definition columnRecord (dsName dsCaption : string) (isParameterDs : bool)
    (counter : nat) (col parent : node) : FieldRecord :=
  let fieldId :=
    or_str (getAttribute col "id")
           (wrap (or_str (getAttribute col "name") ("col_" ++ string_of_nat counter))) in
  let fieldName := or_str (getAttribute col "name") fieldId in
  let fieldCaption := or_str (getAttribute col "caption") fieldName in
  let fieldCalculation := calculationFormulaOf col in
  let fieldDesc := descriptionOf col in
  {| counter := counter;
     datasource_name := Some dsName;
     datasource := None;
     datasource_caption := dsCaption;
     alias := getAttribute col "alias";
     field_calculation := fieldCalculation;
     field_calculation_bk := fieldCalculation;
     field_caption := Some fieldCaption;
     field_datatype := getAttribute col "datatype";
     field_def_agg := getAttribute col "default-aggregation";
     field_desc := fieldDesc;
     field_hidden := Some (eq_lit (getAttribute col "hidden") "true");
     field_id := fieldId;
     field_is_nominal := Some (eq_lit (getAttribute col "semantic-role") "[Nominal]");
     field_is_ordinal := Some (eq_lit (getAttribute col "semantic-role") "[Ordinal]");
     field_is_quantitative := Some (eq_lit (getAttribute col "semantic-role") "[Measure]");
     field_name := Some fieldName;
     field_role := getAttribute col "role";
     field_type := getAttribute col "type";
     category :=
       if isParameterDs || parentIsParameters parent then Parameters
       else match fieldCalculation with
            | Some _ => Calculated_Field
            | None => Default_Field
            end |}.

(** The object literal built for a [<param>] (lines 91-107). *)
Definition paramRecord (dsName dsCaption : string) (counter : nat) (param : node)
  : FieldRecord :=
  {| counter := counter;
     datasource_name := Some dsName;
     datasource := None;
     datasource_caption := dsCaption;
     alias := getAttribute param "alias";
     field_calculation := None;
     field_calculation_bk := None;
     field_caption := or_else (getAttribute param "caption") (getAttribute param "name");
     field_datatype := getAttribute param "datatype";
     field_def_agg := None;
     field_desc := None;
     field_hidden := Some false;
     field_id := wrap (tmpl (getAttribute param "name"));
     field_is_nominal := None;
     field_is_ordinal := None;
     field_is_quantitative := None;
     field_name := getAttribute param "name";
     field_role := Some "parameter";
     field_type := Some "quantitative";
     category := Parameters |}.

(** The state of the collection loops: [allFields] and [counter]. *)
Definition CollectState : Type := (list FieldRecord * nat)%type.

Definition collectColumn (dsName dsCaption : string) (isParameterDs : bool)
    (st : CollectState) (cp : node * node) : CollectState :=
  let '(allFields, counter) := st in
  (allFields ++ [columnRecord dsName dsCaption isParameterDs counter (fst cp) (snd cp)],
   S counter).

Definition collectParam (dsName dsCaption : string)
    (st : CollectState) (param : node) : CollectState :=
  let '(allFields, counter) := st in
  let fieldId := wrap (tmpl (getAttribute param "name")) in
  if existsb (fun f => (field_id f =? fieldId) && eq_lit (datasource_name f) "Parameters")
             allFields
  then st
  else (allFields ++ [paramRecord dsName dsCaption counter param], S counter).

Definition collectDatasource (st : CollectState) (ds : node) : CollectState :=
  let dsName := or_str (getAttribute ds "name") "Unknown Datasource" in
  let dsCaption := or_str (getAttribute ds "caption") dsName in
  let isParameterDs := toLowerCase dsName =? "parameters" in
  let st1 := fold_left (collectColumn dsName dsCaption isParameterDs)
                       (getElementsByTagNameP ds "column") st in
  if isParameterDs
  then fold_left (collectParam dsName dsCaption) (getElementsByTagName ds "param") st1
  else st1.

Definition collectFields (xmlDoc : node) : CollectState :=
  fold_left collectDatasource (docElementsByTagName xmlDoc "datasource") ([], 0).

(* ================================================================== *)
(** ** Maps, sets and sorting                                          *)
(* ================================================================== *)

(** A [Map] from strings to strings, in insertion order. *)
Definition JsMap : Type := list (string * string).

Definition map_get (k : string) (m : JsMap) : option string := assoc k m.

Definition map_has (k : string) (m : JsMap) : bool :=
  match map_get k m with
  | Some _ => true
  | None => false
  end.

(** [m.set(k, v)]: an existing key keeps its position. *)
Fixpoint map_set (k v : string) (m : JsMap) : JsMap :=
  match m with
  | [] => [(k, v)]
  | (k', v') :: r => if k' =? k then (k, v) :: r else (k', v') :: map_set k v r
  end.

Definition map_keys (m : JsMap) : list string := map fst m.

Definition set_has (x : string) (s : list string) : bool :=
  existsb (String.eqb x) s.

Section Sort.
Context {A : Type} (cmp : A -> A -> Z).

(** [x] comes from the left of all of [l]: it stays before its equals. *)
Fixpoint insert_sorted (x : A) (l : list A) : list A :=
  match l with
  | [] => [x]
  | y :: r => if (cmp y x <? 0)%Z then y :: insert_sorted x r else x :: y :: r
  end.

(** [l.sort(cmp)]. *)
Fixpoint js_sort (l : list A) : list A :=
  match l with
  | [] => []
  | x :: r => insert_sorted x (js_sort r)
  end.
End Sort.

(* ================================================================== *)
(** ** Regular expressions of the engine                               *)
(* ================================================================== *)

Fixpoint mem_char (c : ascii) (s : string) : bool :=
  match s with
  | EmptyString => false
  | String d r => (c =? d)%char || mem_char c r
  end.

(** The class [[-\/\\^$*+?.()|[\]{}]] of the escaping replace. *)
Definition regex_special (c : ascii) : bool := mem_char c "-/\^$*+?.()|[]{}".

(** The syntax characters of a pattern. *)
Definition syntax_char (c : ascii) : bool := mem_char c "^$\.*+?()[]{}|".

(** [s.replace(/[-\/\\^$*+?.()|[\]{}]/g, '\\$&')]. *)
Fixpoint escapeRegExp (s : string) : string :=
  match s with
  | EmptyString => EmptyString
  | String c r =>
      if regex_special c then String "\" (String c (escapeRegExp r))
      else String c (escapeRegExp r)
  end.

(** The string a pattern matches literally, when the pattern consists of
    pattern characters and identity escapes of punctuation only. *)
Fixpoint literal_of_pattern (src : string) : option string :=
  match src with
  | EmptyString => Some EmptyString
  | String c r =>
      if (c =? "\")%char then
        match r with
        | String d r' =>
            if regex_special d then option_map (String d) (literal_of_pattern r')
            else None
        | EmptyString => None
        end
      else if syntax_char c then None
      else option_map (String c) (literal_of_pattern r)
  end.

(** [new RegExp(src, 'gi')], as the literal the expression matches. *)
Definition RegExp_gi (src : string) : result string :=
  match literal_of_pattern src with
  | Some lit => Ok lit
  | None => Err (PatternNotLiteral src)
  end.

(** Does the literal match at the start of [s], ignoring case? *)
Fixpoint prefix_ci (lit s : string) : bool :=
  match lit, s with
  | EmptyString, _ => true
  | String a lit', String b s' => (canon a =? canon b)%char && prefix_ci lit' s'
  | String _ _, EmptyString => false
  end.

(** The expansion of a replacement string for one match (no capture
    groups): [$$], [$&], [$`] and [$'] are patterns, any other [$] is kept. *)
Fixpoint getSubstitution (matched before after template : string) : string :=
  match template with
  | EmptyString => EmptyString
  | String c rest =>
      if (c =? "$")%char then
        match rest with
        | String d rest' =>
            if (d =? "$")%char then String "$" (getSubstitution matched before after rest')
            else if (d =? "&")%char then matched ++ getSubstitution matched before after rest'
            else if (d =? "`")%char then before ++ getSubstitution matched before after rest'
            else if (d =? "'")%char then after ++ getSubstitution matched before after rest'
            else String c (getSubstitution matched before after rest)
        | EmptyString => String c EmptyString
        end
      else String c (getSubstitution matched before after rest)
  end.

(** [s.replace(regex, template)] for a global, case-insensitive literal:
    [skip] characters of a match are still to be passed over, [before_rev]
    is the text read so far, reversed. *)
Fixpoint replace_from (lit template before_rev : string) (skip : nat) (s : string) : string :=
  match s with
  | EmptyString =>
      match skip, lit with
      | O, EmptyString => getSubstitution "" (string_rev before_rev) "" template
      | _, _ => EmptyString
      end
  | String c r =>
      match skip with
      | S k => replace_from lit template (String c before_rev) k r
      | O =>
          if prefix_ci lit s then
            getSubstitution (take (String.length lit) s) (string_rev before_rev)
                            (drop (String.length lit) s) template
            ++ match String.length lit with
               | O => String c (replace_from lit template (String c before_rev) 0 r)
               | S k => replace_from lit template (String c before_rev) k r
               end
          else String c (replace_from lit template (String c before_rev) 0 r)
      end
  end.

Definition replace_gi (lit template s : string) : string :=
  replace_from lit template "" 0 s.

(** [regex.test(s)] for a fresh global, case-insensitive literal. *)
Fixpoint test_gi (lit s : string) : bool :=
  prefix_ci lit s ||
  match s with
  | EmptyString => false
  | String _ r => test_gi lit r
  end.

(** The matches of [/\[([^\]]+)\]/g], each without its brackets. *)
Fixpoint match_body (s : string) : option string :=
  match s with
  | EmptyString => None
  | String c r =>
      if (c =? "]")%char then Some EmptyString
      else option_map (String c) (match_body r)
  end.

Fixpoint match_tokens (skip : nat) (s : string) : list string :=
  match s with
  | EmptyString => []
  | String c r =>
      match skip with
      | S k => match_tokens k r
      | O =>
          if (c =? "[")%char then
            match match_body r with
            | Some EmptyString => match_tokens 0 r
            | Some body => body :: match_tokens (S (String.length body)) r
            | None => match_tokens 0 r
            end
          else match_tokens 0 r
      end
  end.

(* ================================================================== *)
(** ** Identifier map and formula rewriting (source lines 115-151)     *)
(* ================================================================== *)

Definition cleanIdOf (field : FieldRecord) : string :=
  filter_string (fun c => negb (is_bracket c)) (field_id field).

Definition friendlyNameOf (field : FieldRecord) : string :=
  wrap (tmpl (or_else (field_caption field) (field_name field))).

Definition calcMapStep (calcMapRaw : JsMap) (field : FieldRecord) : JsMap :=
  let cleanId := cleanIdOf field in
  let friendlyName := friendlyNameOf field in
  match category field with
  | Calculated_Field | Parameters => map_set cleanId friendlyName calcMapRaw
  | Default_Field =>
      if negb (map_has cleanId calcMapRaw) then map_set cleanId friendlyName calcMapRaw
      else calcMapRaw
  end.

Definition buildCalcMap (allFields : list FieldRecord) : JsMap :=
  fold_left calcMapStep allFields [].

(** The comparator [(a, b) => b.length - a.length]. *)
Definition longerFirst (a b : string) : Z :=
  (Z.of_nat (String.length b) - Z.of_nat (String.length a))%Z.

(** [Array.from(calcMapRaw.keys()).sort((a, b) => b.length - a.length)] *)
Definition sortedKeysOf (calcMapRaw : JsMap) : list string :=
  js_sort longerFirst (map_keys calcMapRaw).

(** The body of [sortedKeys.forEach]. *)
Definition rewriteStep (calcMapRaw : JsMap) (acc : result string) (keyId : string)
  : result string :=
  formula <- acc ;;
  regex <- RegExp_gi ("\[" ++ escapeRegExp keyId ++ "\]") ;;
  match map_get keyId calcMapRaw with
  | Some replacement =>
      if truthy (Some replacement) then Ok (replace_gi regex replacement formula)
      else Ok formula
  | None => Ok formula
  end.

(** The Formula Rewriter on one formula. *)
Definition rewriteFormula (calcMapRaw : JsMap) (formula : string) : result string :=
  fold_left (rewriteStep calcMapRaw) (sortedKeysOf calcMapRaw) (Ok formula).

Definition rewriteField (calcMapRaw : JsMap) (field : FieldRecord) : result FieldRecord :=
  match field_calculation field with
  | Some formula0 =>
      if truthy (Some formula0) then
        formula <- rewriteFormula calcMapRaw formula0 ;;
        Ok (set_field_calculation field (Some formula))
      else Ok field
  | None => Ok field
  end.

Fixpoint rewriteAll (calcMapRaw : JsMap) (allFields : list FieldRecord)
  : result (list FieldRecord) :=
  match allFields with
  | [] => Ok []
  | field :: rest =>
      field' <- rewriteField calcMapRaw field ;;
      rest' <- rewriteAll calcMapRaw rest ;;
      Ok (field' :: rest')
  end.

(* ================================================================== *)
(** ** Deduplication, ordering and the dependency graph                *)
(* ================================================================== *)

Definition isCalcOrParam (f : FieldRecord) : bool :=
  match category f with
  | Calculated_Field | Parameters => true
  | Default_Field => false
  end.

Definition fromParametersDs (f : FieldRecord) : bool :=
  eq_lit (datasource_name f) "Parameters".

(** The comparator of the sort before deduplication (lines 160-164). *)
Definition dedupCmp (a b : FieldRecord) : Z :=
  if fromParametersDs a && negb (fromParametersDs b) then (-1)%Z
  else if negb (fromParametersDs a) && fromParametersDs b then 1%Z
  else (Z.of_nat (counter a) - Z.of_nat (counter b))%Z.

(** The [forEach] that fills [uniqueFields] and [seenFieldIds]. *)
Fixpoint dedupe (seenFieldIds : list string) (l : list FieldRecord) : list FieldRecord :=
  match l with
  | [] => []
  | field :: rest =>
      if set_has (field_id field) seenFieldIds then dedupe seenFieldIds rest
      else field :: dedupe (field_id field :: seenFieldIds) rest
  end.

(** [preferenceOrder.indexOf(category)]. *)
Definition preferenceIndex (c : Category) : Z :=
  match c with
  | Parameters => 0
  | Calculated_Field => 1
  | Default_Field => 2
  end%Z.

(** The token scan of the formulas (lines 196-219 and, with the same text,
    [extractDependencies], lines 252-278). *)
Definition edgesOfField (field : FieldRecord) : list DependencyEdge :=
  match field_calculation field with
  | Some formula =>
      if truthy (Some formula) then
        let matches := match_tokens 0 formula in
        let dependencies :=
          filter (fun dep => negb (opt_eqb (Some dep) (field_caption field))) matches in
        map (fun dep => {| from := Some dep; to := field_caption field |}) dependencies
      else []
  | None => []
  end.

Definition extractDependencies (fields : list FieldRecord) : list DependencyEdge :=
  flat_map edgesOfField fields.

(** The placeholder pushed for a source name that no field has (lines 226-234). *)
Definition placeholderRecord (counter : nat) (name : option string) : FieldRecord :=
  {| counter := counter;
     datasource_name := None;
     datasource := Some "Unknown";
     datasource_caption := "Unknown";
     alias := None;
     field_calculation := None;
     field_calculation_bk := None;
     field_caption := name;
     field_datatype := None;
     field_def_agg := None;
     field_desc := None;
     field_hidden := None;
     field_id := wrap (tmpl name);
     field_is_nominal := None;
     field_is_ordinal := None;
     field_is_quantitative := None;
     field_name := name;
     field_role := None;
     field_type := None;
     category := Default_Field |}.

(** The state of the closing loop: [uniqueFields], [allFieldNames], [counter]. *)
Definition CloseState : Type := (list FieldRecord * list (option string) * nat)%type.

Definition closeStep (st : CloseState) (rel : DependencyEdge) : CloseState :=
  let '(uniqueFields, allFieldNames, counter) := st in
  if existsb (opt_eqb (from rel)) allFieldNames then st
  else (uniqueFields ++ [placeholderRecord counter (from rel)],
        allFieldNames ++ [from rel],
        S counter).

(** The containment scan of [analyzeDependencies] (lines 286-331). *)
Definition coreIdentifierOf (field : FieldRecord) : string :=
  let coreIdentifier := field_id field in
  if startsWith "[" coreIdentifier && endsWith "]" coreIdentifier
  then substring_js 1 (String.length coreIdentifier - 1) coreIdentifier
  else coreIdentifier.

Definition containmentStep (originalFormula : string) (targetField : FieldRecord)
    (acc : result (list DependencyEdge)) (potentialSourceField : FieldRecord)
  : result (list DependencyEdge) :=
  relationships <- acc ;;
  if field_id potentialSourceField =? field_id targetField then Ok relationships
  else
    regex <- RegExp_gi ("\[" ++ escapeRegExp (coreIdentifierOf potentialSourceField) ++ "\]") ;;
    if test_gi regex originalFormula
    then Ok (relationships ++ [ {| from := field_caption potentialSourceField;
                                   to := field_caption targetField |} ])
    else Ok relationships.

Definition containmentTarget (fields : list FieldRecord)
    (acc : result (list DependencyEdge)) (targetField : FieldRecord)
  : result (list DependencyEdge) :=
  relationships <- acc ;;
  match field_calculation_bk targetField with
  | Some originalFormula =>
      if truthy (Some originalFormula)
      then fold_left (containmentStep originalFormula targetField) fields (Ok relationships)
      else Ok relationships
  | None => Ok relationships
  end.

Definition analyzeDependencies (fields calcs : list FieldRecord)
  : result (list DependencyEdge) :=
  fold_left (containmentTarget fields) calcs (Ok []).

Section Engine.

(** The relational operators of JavaScript convert [null] and a string to
    numbers before they compare them. [numberSign s] stands for the sign of
    the number [s] converts to: negative, zero or positive, and zero when
    [s] is no number (every comparison with NaN is false). *)
Variable numberSign : string -> Z.

(** [a < b] for values that are strings or [null]. *)
Definition js_lt (a b : option string) : bool :=
  match a, b with
  | Some x, Some y => String.ltb x y
  | None, Some y => (0 <? numberSign y)%Z
  | Some x, None => (numberSign x <? 0)%Z
  | None, None => false
  end.

(** The comparator of the presentation sort (lines 177-191). It is a
    consistent order as long as every [field_name] is a string; with a
    [null] name among them the order of the result is left to the engine,
    and the properties below use of this sort only that it permutes. *)
Definition presentationCmp (a b : FieldRecord) : Z :=
  let typeAIndex := preferenceIndex (category a) in
  let typeBIndex := preferenceIndex (category b) in
  if negb (typeAIndex =? typeBIndex)%Z then (typeAIndex - typeBIndex)%Z
  else if String.ltb (datasource_caption a) (datasource_caption b) then (-1)%Z
  else if String.ltb (datasource_caption b) (datasource_caption a) then 1%Z
  else if js_lt (field_name a) (field_name b) then (-1)%Z
  else if js_lt (field_name b) (field_name a) then 1%Z
  else (Z.of_nat (counter a) - Z.of_nat (counter b))%Z.

(** Steps 3 and 4: the deduplicated fields in presentation order. *)
Definition uniqueFieldsOf (allFields : list FieldRecord) : list FieldRecord :=
  js_sort presentationCmp (dedupe [] (js_sort dedupCmp allFields)).

(** Steps 5 to 7 and the returned object. *)
Definition assemble (uniqueFields : list FieldRecord) (counter : nat) : Output :=
  let calcsForMermaid := filter isCalcOrParam uniqueFields in
  let relationships := extractDependencies uniqueFields in
  let allFieldNames := map field_caption uniqueFields in
  let '(uniqueFields', _, _) :=
    fold_left closeStep relationships (uniqueFields, allFieldNames, counter) in
  {| fields := uniqueFields';
     calcs := calcsForMermaid;
     relationships := relationships |}.

Definition extractDataFromTwb (xmlDoc : node) : result Output :=
  let '(allFields0, counter) := collectFields xmlDoc in
  let calcMapRaw := buildCalcMap allFields0 in
  allFields <- rewriteAll calcMapRaw allFields0 ;;
  Ok (assemble (uniqueFieldsOf allFields) counter).

End Engine.

(* ================================================================== *)
(** ** Auxiliary notions used by the statements                        *)
(* ================================================================== *)

(** The rewriting of a formula once every pattern is known to compile: the
    substitution of one key, and the pass over the sorted keys. *)
Definition substituteKey (calcMapRaw : JsMap) (formula keyId : string) : string :=
  match map_get keyId calcMapRaw with
  | Some replacement =>
      if truthy (Some replacement) then replace_gi (wrap keyId) replacement formula
      else formula
  | None => formula
  end.

Definition rewrittenFormula (calcMapRaw : JsMap) (formula : string) : string :=
  fold_left (substituteKey calcMapRaw) (sortedKeysOf calcMapRaw) formula.

Definition rewrittenField (calcMapRaw : JsMap) (field : FieldRecord) : FieldRecord :=
  match field_calculation field with
  | Some formula0 =>
      if truthy (Some formula0)
      then set_field_calculation field (Some (rewrittenFormula calcMapRaw formula0))
      else field
  | None => field
  end.

(** The raw records of a document, their number, and the records after the
    rewriting step. *)
Definition rawFields (xmlDoc : node) : list FieldRecord := fst (collectFields xmlDoc).

Definition rawCounter (xmlDoc : node) : nat := snd (collectFields xmlDoc).

Definition rewrittenFields (xmlDoc : node) : list FieldRecord :=
  map (rewrittenField (buildCalcMap (rawFields xmlDoc))) (rawFields xmlDoc).

(** What the collection loops keep true of every record of [allFields]. *)
Definition rawRecord (f : FieldRecord) : Prop :=
  field_calculation_bk f = field_calculation f /\
  datasource f = None /\
  exists dsName, datasource_name f = Some dsName /\
    (toLowerCase dsName = "parameters" -> category f = Parameters).

Definition collected (st : CollectState) : Prop :=
  map counter (fst st) = seq 0 (snd st) /\ Forall rawRecord (fst st).

(** The placeholders the closing loop pushes, given the names known so far
    and the next counter. *)
Fixpoint placeholdersFor (allFieldNames : list (option string)) (counter : nat)
    (relationships : list DependencyEdge) : list FieldRecord :=
  match relationships with
  | [] => []
  | rel :: rest =>
      if existsb (opt_eqb (from rel)) allFieldNames
      then placeholdersFor allFieldNames counter rest
      else placeholderRecord counter (from rel)
           :: placeholdersFor (allFieldNames ++ [from rel]) (S counter) rest
  end.

(** The deduplicated fields of a document, in presentation order (the
    value of [uniqueFields] when step 4 is done). *)
Definition deduplicatedFields (numberSign : string -> Z) (xmlDoc : node)
  : list FieldRecord :=
  uniqueFieldsOf numberSign (rewrittenFields xmlDoc).

(** A record of the given list carries this sequence number. *)
Definition hasCounter (n : nat) (l : list FieldRecord) : Prop :=
  exists f, In f l /\ counter f = n.

(** The order the sort before deduplication puts two records in: records of
    the datasource named "Parameters" first, then by sequence number. *)
Definition dedupOrder (a b : FieldRecord) : Prop :=
  (fromParametersDs a = true /\ fromParametersDs b = false) \/
  (fromParametersDs a = fromParametersDs b /\ counter a < counter b).

(** *** Documents of the scenarios *)

(** A [<column>] with an id, a caption and, when given, a formula. *)
Definition columnElem (id caption : string) (formula : option string) : node :=
  Elem "column" [("id", id); ("caption", caption)]
       match formula with
       | Some f => [Elem "calculation" [("formula", f)] []]
       | None => []
       end.

Definition thresholdParam : node := Elem "param" [("name", "Threshold")] [].

Definition thresholdColumn : node := columnElem "[Threshold]" "Threshold" None.

Definition parametersDs : node := Elem "datasource" [("name", "Parameters")] [thresholdParam].

Definition salesThresholdDs : node := Elem "datasource" [("name", "Sales")] [thresholdColumn].

(** Scenario B, with the "Parameters" datasource first and with it last. *)
Definition scenarioB : node :=
  Elem "workbook" [] [Elem "datasources" [] [parametersDs; salesThresholdDs]].

Definition scenarioB_reversed : node :=
  Elem "workbook" [] [Elem "datasources" [] [salesThresholdDs; parametersDs]].



(** Two columns of id [[A]], the second a calculation captioned "Q"; a
    column of id [[Q]] captioned "Z"; and a calculation that refers to [[A]]. *)
Definition shadowedCaption : node :=
  Elem "workbook" []
    [Elem "datasource" [("name", "Sales")]
       [columnElem "[Q]" "Z" None;
        columnElem "[A]" "P" None;
        columnElem "[A]" "Q" (Some "1");
        columnElem "[F]" "F" (Some "[A]")]].

(** A datasource without attributes around a column and a parameter without
    attributes, and the same below a datasource named "PARAMETERS". *)
Definition bareColumn : node := Elem "column" [] [].

Definition bareParam : node := Elem "param" [] [].

Definition bareDatasource : node := Elem "datasource" [] [bareColumn; bareParam].

Definition bareParameters : node :=
  Elem "datasource" [("name", "PARAMETERS")] [bareColumn; bareParam].

(** Scenario A: the datasource "Sales" with the columns [[Sales]], [[Cost]]
    and the calculation [[Profit Ratio]]; the bracketed text is the id of a
    column in [scenarioA] and its name in [scenarioA_named]. *)
Definition salesColumn : node := columnElem "[Sales]" "Sales" None.

Definition costColumn : node := columnElem "[Cost]" "Cost" None.

Definition profitRatioColumn : node :=
  columnElem "[Profit Ratio]" "Profit Ratio" (Some "[Sales]/[Cost]").

Definition scenarioA_ds : node :=
  Elem "datasource" [("name", "Sales")] [salesColumn; costColumn; profitRatioColumn].

Definition scenarioA : node :=
  Elem "workbook" [] [Elem "datasources" [] [scenarioA_ds]].

Definition namedColumn (name caption : string) (formula : option string) : node :=
  Elem "column" [("name", name); ("caption", caption)]
       match formula with
       | Some f => [Elem "calculation" [("formula", f)] []]
       | None => []
       end.

Definition scenarioA_named : node :=
  Elem "workbook" []
    [Elem "datasources" []
       [Elem "datasource" [("name", "Sales")]
          [namedColumn "[Sales]" "Sales" None;
           namedColumn "[Cost]" "Cost" None;
           namedColumn "[Profit Ratio]" "Profit Ratio" (Some "[Sales]/[Cost]")]]].

(** What the scenarios look at in a record. *)
Definition summary (f : FieldRecord)
  : option string * Category * option string * option string :=
  (field_caption f, category f, field_calculation f, field_calculation_bk f).

(** A calculation written with the caption "Profit" of the field whose
    identifier is [Calculation_1]. *)
Definition captionReference : node :=
  Elem "workbook" []
    [Elem "datasource" [("name", "Sales")]
       [columnElem "[Calculation_1]" "Profit" (Some "1");
        columnElem "[Calculation_2]" "Double" (Some "[Profit]*2")]].

(** Two fields with the one caption "X", the second computed from the first. *)
Definition sharedCaption : node :=
  Elem "workbook" []
    [Elem "datasource" [("name", "Sales")]
       [columnElem "[t]" "X" None;
        columnElem "[f]" "X" (Some "[t]")]].

(** *** Formulas cut at their brackets *)

(** A string without brackets, and a string without [$]. *)
Definition clean (s : string) : bool :=
  forallb_string (fun c => negb (is_bracket c)) s.

Definition no_dollar (s : string) : bool :=
  forallb_string (fun c => negb (c =? "$")%char) s.

(** A bracket and the bracket-free text that follows it; [true] is the
    opening bracket. *)
Definition Chunk : Type := (bool * string)%type.

Definition bracket_char (opening : bool) : ascii :=
  if opening then "["%char else "]"%char.

Fixpoint join_chunks (l : list Chunk) : string :=
  match l with
  | [] => EmptyString
  | (b, u) :: r => String (bracket_char b) (u ++ join_chunks r)
  end.

Definition join (u0 : string) (l : list Chunk) : string := u0 ++ join_chunks l.

Fixpoint split_brackets (s : string) : string * list Chunk :=
  match s with
  | EmptyString => (EmptyString, [])
  | String c r =>
      let '(u0, l) := split_brackets r in
      if (c =? "[")%char then (EmptyString, (true, u0) :: l)
      else if (c =? "]")%char then (EmptyString, (false, u0) :: l)
      else (String c u0, l)
  end.

Definition clean_chunks (l : list Chunk) : Prop :=
  Forall (fun bu => clean (snd bu) = true) l.

Definition closes_next (l : list Chunk) : bool :=
  match l with
  | (false, _) :: _ => true
  | _ => false
  end.

(** The chunks with a function applied to every token: the text between an
    opening bracket and a closing bracket that follows it directly. *)
Fixpoint map_tokens (t : string -> string) (l : list Chunk) : list Chunk :=
  match l with
  | [] => []
  | (b, u) :: r => (b, if b && closes_next r then t u else u) :: map_tokens t r
  end.

(** The text of a friendly name between its brackets. *)
Definition unwrap (v : string) : string :=
  take (String.length v - 2) (drop 1 v).

(** What the substitution of one key does to a token, and what the whole
    pass does to it. *)
Definition tokenOfKey (calcMapRaw : JsMap) (x keyId : string) : string :=
  match map_get keyId calcMapRaw with
  | Some replacement => if eq_ci x keyId then unwrap replacement else x
  | None => x
  end.

Definition rewrittenToken (calcMapRaw : JsMap) (x : string) : string :=
  fold_left (tokenOfKey calcMapRaw) (sortedKeysOf calcMapRaw) x.

(** Identifiers without brackets, friendly names that are one bracketed
    text without brackets and without [$]. *)
Definition well_named (m : JsMap) : Prop :=
  forall k v, In k (map_keys m) -> map_get k m = Some v ->
    clean k = true /\
    exists c, v = wrap c /\ clean c = true /\ no_dollar c = true.

(** The name [c] is settled in the map: an identifier that equals it up to
    case has the friendly name [[c]]. *)
Definition settled (m : JsMap) (c : string) : Prop :=
  forall k', In k' (map_keys m) -> eq_ci c k' = true -> map_get k' m = Some (wrap c).

(** Every friendly name of the map is settled. *)
Definition stable (m : JsMap) : Prop :=
  forall k c, In k (map_keys m) -> map_get k m = Some (wrap c) -> settled m c.

(** One substitution on a token: the key [k] with the name [c]. *)
Definition token_step (k c x : string) : string :=
  if eq_ci x k then c else x.




(** The map of Scenario A. *)
Definition scenarioA_map : JsMap :=
  [("Sales", "[Sales]"); ("Cost", "[Cost]"); ("Profit Ratio", "[Profit Ratio]")].




(** A map in which both identifiers keep their names. *)
Definition salesMap : JsMap :=
  [("Sales", "[Sales]"); ("Sales Amount", "[Sales Amount]")].

(** A friendly name with a bracket inside, and one with the pattern [$&]. *)
Definition bracketNameMap : JsMap := [("b", "[y]"); ("a", "[x][b]")].

Definition dollarNameMap : JsMap := [("a", "[$&]")].

(** *** Notions of the further properties *)

(** [isParameterDs] of the loop over the datasources. *)
Definition isParametersDs (ds : node) : bool :=
  toLowerCase (or_str (getAttribute ds "name") "Unknown Datasource") =? "parameters".

(** The [<column>] elements met by the loops, and the [<param>] elements
    met by them (those of the datasources named "parameters" up to case). *)
Definition columnCount (xmlDoc : node) : nat :=
  list_sum (map (fun ds => List.length (getElementsByTagNameP ds "column"))
                (docElementsByTagName xmlDoc "datasource")).

Definition paramCount (xmlDoc : node) : nat :=
  list_sum (map (fun ds => if isParametersDs ds
                           then List.length (getElementsByTagName ds "param") else 0)
                (docElementsByTagName xmlDoc "datasource")).

(** The object literal of a [<param>] is the one without the members of the
    semantic role. *)
Definition madeFromParam (f : FieldRecord) : bool :=
  match field_is_nominal f with
  | None => true
  | Some _ => false
  end.

(** The test of [allFields.some] in the loop over the parameters. *)
Definition takenInParameters (fieldId : string) (f : FieldRecord) : bool :=
  (field_id f =? fieldId) && eq_lit (datasource_name f) "Parameters".

(** The record whose name the identifier [k] gets in the map: the last
    calculation or parameter with that identifier, or else the first record
    with it. *)
Definition nameClaimed (allFields : list FieldRecord) (k : string) : option string :=
  match find (fun f => (cleanIdOf f =? k) && isCalcOrParam f) (rev allFields) with
  | Some f => Some (friendlyNameOf f)
  | None => option_map friendlyNameOf (find (fun f => cleanIdOf f =? k) allFields)
  end.

(** A string without an opening bracket. *)
Definition no_open (s : string) : bool :=
  forallb_string (fun c => negb (c =? "[")%char) s.


(** The edges of the containment scan, as one comprehension. *)
Definition containmentSources (fields : list FieldRecord) (targetField : FieldRecord)
    (originalFormula : string) : list FieldRecord :=
  filter (fun s => negb (field_id s =? field_id targetField) &&
                   test_gi (wrap (coreIdentifierOf s)) originalFormula) fields.

Definition containmentEdges (fields calcs : list FieldRecord) : list DependencyEdge :=
  flat_map (fun targetField =>
              match field_calculation_bk targetField with
              | Some originalFormula =>
                  if truthy (Some originalFormula)
                  then map (fun s => {| from := field_caption s;
                                        to := field_caption targetField |})
                           (containmentSources fields targetField originalFormula)
                  else []
              | None => []
              end) calcs.

(** Two datasources named "Parameters": the parameter "Threshold" in the
    first, a column of the same id in the second. *)
Definition parametersTwice : node :=
  Elem "workbook" []
    [parametersDs; Elem "datasource" [("name", "Parameters")] [thresholdColumn]].

(** A string without a closing bracket. *)
Definition no_close (s : string) : bool :=
  forallb_string (fun c => negb (c =? "]")%char) s.

(** A calculation that names a field no datasource has (Scenario C of the
    specification). *)
Definition externalMetric : node :=
  Elem "workbook" []
    [Elem "datasource" [("name", "Sales")]
       [columnElem "[Twice]" "Twice" (Some "[External Metric]*2")]].




(** Two calculations without a token: a sum of numbers, and a bracket that
    is never closed. *)
Definition plainFormulas : node :=
  Elem "workbook" []
    [Elem "datasource" [("name", "Sales")]
       [columnElem "[One]" "One" (Some "1 + 2");
        columnElem "[Open]" "Open" (Some "MIN([x")]].

(* ================================================================== *)
(** ** Properties                                                      *)
(* ================================================================== *)

(** *** Patterns built by escaping are literal *)

Lemma plain_char_not_syntax (c : ascii) :
  regex_special c = false -> (c =? "\")%char = false /\ syntax_char c = false.
Proof.
  destruct c as [[] [] [] [] [] [] [] []]; vm_compute; intros H;
    first [discriminate H | split; reflexivity].
Qed.

Lemma literal_of_escaped (s tail : string) :
  literal_of_pattern (escapeRegExp s ++ tail) =
  option_map (String.append s) (literal_of_pattern tail).
Proof.
  induction s as [|c s IH]; simpl.
  - destruct (literal_of_pattern tail); reflexivity.
  - destruct (regex_special c) eqn:Hc.
    + cbn [String.append literal_of_pattern]. rewrite Ascii.eqb_refl, Hc, IH.
      destruct (literal_of_pattern tail); reflexivity.
    + destruct (plain_char_not_syntax c Hc) as [Hb Hs].
      cbn [String.append literal_of_pattern]. rewrite Hb, Hs, IH.
      destruct (literal_of_pattern tail); reflexivity.
Qed.

Lemma RegExp_gi_escaped (k : string) :
  RegExp_gi ("\[" ++ escapeRegExp k ++ "\]") = Ok (wrap k).
Proof.
  unfold RegExp_gi.
  change ("\[" ++ escapeRegExp k ++ "\]")%string
    with (String "\" (String "[" (escapeRegExp k ++ "\]")%string)).
  cbn [literal_of_pattern]. rewrite Ascii.eqb_refl.
  change (regex_special "[") with true. cbn iota.
  rewrite literal_of_escaped. reflexivity.
Qed.

Lemma rewriteStep_ok (m : JsMap) (formula k : string) :
  rewriteStep m (Ok formula) k = Ok (substituteKey m formula k).
Proof.
  unfold rewriteStep, substituteKey. cbn [bind]. rewrite RegExp_gi_escaped. cbn [bind].
  destruct (map_get k m) as [r|]; [destruct (truthy (Some r))|]; reflexivity.
Qed.

Lemma rewriteSteps_ok (m : JsMap) (keys : list string) (formula : string) :
  fold_left (rewriteStep m) keys (Ok formula) =
  Ok (fold_left (substituteKey m) keys formula).
Proof.
  revert formula. induction keys as [|k keys IH]; intros formula; cbn [fold_left].
  - reflexivity.
  - rewrite rewriteStep_ok. apply IH.
Qed.

Lemma rewriteFormula_ok (m : JsMap) (formula : string) :
  rewriteFormula m formula = Ok (rewrittenFormula m formula).
Proof. apply rewriteSteps_ok. Qed.

Lemma rewriteField_ok (m : JsMap) (f : FieldRecord) :
  rewriteField m f = Ok (rewrittenField m f).
Proof.
  unfold rewriteField, rewrittenField.
  destruct (field_calculation f) as [f0|]; [|reflexivity].
  destruct (truthy (Some f0)); [|reflexivity].
  rewrite rewriteFormula_ok. reflexivity.
Qed.

Lemma rewriteAll_ok (m : JsMap) (l : list FieldRecord) :
  rewriteAll m l = Ok (map (rewrittenField m) l).
Proof.
  induction l as [|f l IH]; cbn [rewriteAll map]; [reflexivity|].
  rewrite rewriteField_ok, IH. reflexivity.
Qed.

(** *** The raw records *)

Lemma collected_push (fs : list FieldRecord) (n : nat) (f : FieldRecord) :
  collected (fs, n) -> counter f = n -> rawRecord f -> collected (fs ++ [f], S n).
Proof.
  intros [Hc Hf] Hn Hr. split; cbn [fst snd] in *.
  - rewrite map_app, Hc, seq_S. simpl. now rewrite Hn.
  - apply Forall_app. split; [assumption|]. constructor; [assumption|constructor].
Qed.

Lemma columnRecord_raw (dsName dsCaption : string) (n : nat) (col parent : node) :
  rawRecord (columnRecord dsName dsCaption (toLowerCase dsName =? "parameters") n col parent).
Proof.
  unfold rawRecord; cbn. repeat split.
  exists dsName. split; [reflexivity|]. intros H. now rewrite H.
Qed.

Lemma paramRecord_raw (dsName dsCaption : string) (n : nat) (param : node) :
  rawRecord (paramRecord dsName dsCaption n param).
Proof.
  unfold rawRecord; cbn. repeat split. exists dsName. split; reflexivity.
Qed.

Lemma collectColumns_collected (dsName dsCaption : string) (cols : list (node * node))
    (st : CollectState) :
  collected st ->
  collected (fold_left (collectColumn dsName dsCaption (toLowerCase dsName =? "parameters"))
                       cols st).
Proof.
  revert st. induction cols as [|cp cols IH]; intros [fs n] H; simpl; [exact H|].
  apply IH. apply collected_push; [exact H|reflexivity|apply columnRecord_raw].
Qed.

Lemma collectParams_collected (dsName dsCaption : string) (ps : list node)
    (st : CollectState) :
  collected st -> collected (fold_left (collectParam dsName dsCaption) ps st).
Proof.
  revert st. induction ps as [|p ps IH]; intros [fs n] H; simpl; [exact H|].
  apply IH. destruct (existsb _ fs); [exact H|].
  apply collected_push; [exact H|reflexivity|apply paramRecord_raw].
Qed.

Lemma collectDatasource_collected (st : CollectState) (ds : node) :
  collected st -> collected (collectDatasource st ds).
Proof.
  intros H. unfold collectDatasource.
  set (dsName := or_str (getAttribute ds "name") "Unknown Datasource").
  destruct (toLowerCase dsName =? "parameters") eqn:E.
  - apply collectParams_collected. rewrite <- E. now apply collectColumns_collected.
  - rewrite <- E. now apply collectColumns_collected.
Qed.

Lemma collectFields_collected (xmlDoc : node) : collected (collectFields xmlDoc).
Proof.
  unfold collectFields.
  assert (G : forall l st, collected st -> collected (fold_left collectDatasource l st)).
  { induction l as [|d l IH]; intros st H; simpl; [exact H|].
    apply IH, collectDatasource_collected, H. }
  apply G. split; [reflexivity|constructor].
Qed.

Lemma rawFields_counters (xmlDoc : node) :
  map counter (rawFields xmlDoc) = seq 0 (rawCounter xmlDoc).
Proof. apply (collectFields_collected xmlDoc). Qed.

Lemma rawFields_raw (xmlDoc : node) : Forall rawRecord (rawFields xmlDoc).
Proof. apply (collectFields_collected xmlDoc). Qed.

Lemma rawCounter_length (xmlDoc : node) :
  rawCounter xmlDoc = List.length (rawFields xmlDoc).
Proof.
  pose proof (rawFields_counters xmlDoc) as H.
  apply (f_equal (@List.length nat)) in H.
  rewrite length_map, length_seq in H. symmetry. exact H.
Qed.

(** *** Sorting *)

Lemma insert_sorted_perm {A : Type} (cmp : A -> A -> Z) (x : A) (l : list A) :
  Permutation (insert_sorted cmp x l) (x :: l).
Proof.
  induction l as [|y l IH]; simpl; [reflexivity|].
  destruct (cmp y x <? 0)%Z; [|reflexivity].
  rewrite IH. apply perm_swap.
Qed.

Lemma js_sort_perm {A : Type} (cmp : A -> A -> Z) (l : list A) :
  Permutation (js_sort cmp l) l.
Proof.
  induction l as [|x l IH]; simpl; [reflexivity|].
  rewrite insert_sorted_perm. now constructor.
Qed.

Lemma js_sort_In {A : Type} (cmp : A -> A -> Z) (l : list A) (x : A) :
  In x (js_sort cmp l) <-> In x l.
Proof.
  split; apply Permutation_in; [|symmetry]; apply js_sort_perm.
Qed.

Lemma insert_dedupCmp (x : FieldRecord) (P N : list FieldRecord) :
  Forall (fun y => fromParametersDs y = true) P ->
  Forall (fun y => fromParametersDs y = false) N ->
  Forall (fun y => counter x < counter y) (P ++ N) ->
  insert_sorted dedupCmp x (P ++ N) =
  if fromParametersDs x then x :: P ++ N else P ++ x :: N.
Proof.
  intros HP. induction HP as [|y P Hy HP IH]; intros HN Hlt.
  - cbn [app] in *. destruct N as [|z N]; [now destruct (fromParametersDs x)|].
    inversion HN as [|? ? Hz _]; subst. inversion Hlt as [|? ? Hc _]; subst.
    cbn [insert_sorted]. unfold dedupCmp. rewrite Hz.
    destruct (fromParametersDs x); cbn [andb negb];
      (destruct (Z.ltb_spec (Z.of_nat (counter z) - Z.of_nat (counter x)) 0);
       [lia|reflexivity]) || reflexivity.
  - cbn [app] in *. inversion Hlt as [|? ? Hc Hlt']; subst.
    cbn [insert_sorted]. unfold dedupCmp at 1. rewrite Hy.
    destruct (fromParametersDs x) eqn:Hx; cbn [andb negb].
    + destruct (Z.ltb_spec (Z.of_nat (counter y) - Z.of_nat (counter x)) 0);
        [lia|reflexivity].
    + rewrite (IH HN Hlt'). reflexivity.
Qed.

Lemma seq_tail_gt (a n : nat) : Forall (fun c => a < c) (seq (S a) n).
Proof.
  apply Forall_forall. intros c Hc. apply in_seq in Hc. lia.
Qed.

Lemma js_sort_dedupCmp (l : list FieldRecord) (a n : nat) :
  map counter l = seq a n ->
  js_sort dedupCmp l =
  filter fromParametersDs l ++ filter (fun f => negb (fromParametersDs f)) l.
Proof.
  revert a n. induction l as [|x l IH]; intros a n H; [reflexivity|].
  destruct n as [|n]; [discriminate H|]. cbn in H. injection H as Hx Hl.
  cbn [js_sort]. rewrite (IH _ _ Hl).
  rewrite insert_dedupCmp.
  - cbn [filter]. destruct (fromParametersDs x); reflexivity.
  - apply Forall_forall. intros y Hy. apply filter_In in Hy. tauto.
  - apply Forall_forall. intros y Hy. apply filter_In in Hy.
    now apply negb_true_iff.
  - apply Forall_forall. intros y Hy.
    assert (Hin : In y l).
    { apply in_app_or in Hy. destruct Hy as [Hy|Hy]; apply filter_In in Hy; tauto. }
    pose proof (seq_tail_gt a n) as G. rewrite <- Hl in G.
    rewrite Forall_forall in G. rewrite Hx.
    apply G. now apply in_map.
Qed.

(** *** Deduplication *)

Lemma set_has_In (x : string) (s : list string) : set_has x s = true <-> In x s.
Proof.
  unfold set_has. rewrite existsb_exists. split.
  - intros [y [Hy He]]. apply String.eqb_eq in He. now subst.
  - intros H. exists x. split; [exact H|apply String.eqb_refl].
Qed.

Lemma set_has_not_In (x : string) (s : list string) : set_has x s = false <-> ~ In x s.
Proof.
  rewrite <- set_has_In. destruct (set_has x s); split; congruence.
Qed.

Lemma dedupe_In (seen : list string) (l : list FieldRecord) (f : FieldRecord) :
  In f (dedupe seen l) -> In f l /\ ~ In (field_id f) seen.
Proof.
  revert seen. induction l as [|g l IH]; intros seen H; [contradiction|].
  cbn [dedupe] in H. destruct (set_has (field_id g) seen) eqn:E.
  - destruct (IH _ H). split; [now right|assumption].
  - destruct H as [H|H].
    + subst. split; [now left|]. now apply set_has_not_In.
    + destruct (IH _ H) as [H1 H2]. split; [now right|].
      intros C. apply H2. now right.
Qed.

Lemma dedupe_NoDup (seen : list string) (l : list FieldRecord) :
  NoDup (map field_id (dedupe seen l)).
Proof.
  revert seen. induction l as [|g l IH]; intros seen; cbn [dedupe]; [constructor|].
  destruct (set_has (field_id g) seen); [apply IH|].
  cbn [map]. constructor; [|apply IH].
  intros C. apply in_map_iff in C. destruct C as [h [Hid Hh]].
  apply dedupe_In in Hh. destruct Hh as [_ Hh]. apply Hh. left. now symmetry.
Qed.

Lemma dedupe_first (seen : list string) (l1 l2 : list FieldRecord) (f : FieldRecord) :
  ~ In (field_id f) seen ->
  ~ In (field_id f) (map field_id l1) ->
  In f (dedupe seen (l1 ++ f :: l2)).
Proof.
  revert seen. induction l1 as [|g l1 IH]; intros seen Hs Hl; cbn [app dedupe].
  - apply set_has_not_In in Hs. rewrite Hs. now left.
  - cbn [map] in Hl.
    assert (Hg : field_id g <> field_id f) by (intros C; apply Hl; now left).
    assert (Hl1 : ~ In (field_id f) (map field_id l1)) by (intros C; apply Hl; now right).
    destruct (set_has (field_id g) seen).
    + now apply IH.
    + right. apply IH; [|assumption]. intros [C|C]; [now apply Hg|now apply Hs].
Qed.

(** Every id of the list that was not seen before keeps a record. *)
Lemma dedupe_covers (seen : list string) (l : list FieldRecord) (f : FieldRecord) :
  In f l -> ~ In (field_id f) seen ->
  exists g l1 l2, l = l1 ++ g :: l2 /\ field_id g = field_id f /\
                  ~ In (field_id f) (map field_id l1) /\ In g (dedupe seen l).
Proof.
  intros Hin Hs. induction l as [|h l IH]; [contradiction|].
  destruct (String.eqb_spec (field_id h) (field_id f)) as [E|E].
  - exists h, [], l. repeat split; [exact E|intros []|].
    apply (dedupe_first seen [] l h); [now rewrite E|intros []].
  - destruct Hin as [Hin|Hin]; [subst; contradiction|].
    destruct (IH Hin) as [g [l1 [l2 [Hl [Hg [Hn Hd]]]]]].
    exists g, (h :: l1), l2. subst l. repeat split; [exact Hg| |].
    + cbn [map]. intros [C|C]; [now apply E|now apply Hn].
    + apply (dedupe_first seen (h :: l1) l2 g); rewrite Hg; [assumption|].
      cbn [map]. intros [C|C]; [now apply E|now apply Hn].
Qed.

Lemma NoDup_map_eq {A B : Type} (f : A -> B) (l : list A) (x y : A) :
  NoDup (map f l) -> In x l -> In y l -> f x = f y -> x = y.
Proof.
  induction l as [|a l IH]; intros Hn Hx Hy E; [contradiction|].
  cbn [map] in Hn. inversion Hn as [|? ? Ha Hn']; subst.
  destruct Hx as [Hx|Hx], Hy as [Hy|Hy]; subst.
  - reflexivity.
  - exfalso. apply Ha. rewrite E. now apply in_map.
  - exfalso. apply Ha. rewrite <- E. now apply in_map.
  - now apply IH.
Qed.

(** *** The rewriting step changes one member only *)

Lemma rewrittenField_frame (m : JsMap) (f : FieldRecord) :
  rewrittenField m f = set_field_calculation f (field_calculation (rewrittenField m f)).
Proof.
  unfold rewrittenField. destruct f; cbn [field_calculation].
  destruct field_calculation0 as [f0|]; [|reflexivity].
  destruct (truthy (Some f0)); reflexivity.
Qed.

Lemma rewrittenField_counter (m : JsMap) (f : FieldRecord) :
  counter (rewrittenField m f) = counter f.
Proof. rewrite rewrittenField_frame. reflexivity. Qed.

Lemma rewrittenField_id (m : JsMap) (f : FieldRecord) :
  field_id (rewrittenField m f) = field_id f.
Proof. rewrite rewrittenField_frame. reflexivity. Qed.

Lemma rewrittenField_datasource_name (m : JsMap) (f : FieldRecord) :
  datasource_name (rewrittenField m f) = datasource_name f.
Proof. rewrite rewrittenField_frame. reflexivity. Qed.

Lemma rewrittenField_fromParametersDs (m : JsMap) (f : FieldRecord) :
  fromParametersDs (rewrittenField m f) = fromParametersDs f.
Proof. unfold fromParametersDs. now rewrite rewrittenField_datasource_name. Qed.

Lemma rewrittenFields_counters (xmlDoc : node) :
  map counter (rewrittenFields xmlDoc) = seq 0 (rawCounter xmlDoc).
Proof.
  unfold rewrittenFields. rewrite map_map.
  rewrite <- rawFields_counters. apply map_ext, rewrittenField_counter.
Qed.

(** *** The closing loop *)

Lemma opt_eqb_eq (a b : option string) : opt_eqb a b = true <-> a = b.
Proof.
  destruct a as [x|], b as [y|]; cbn; try (split; congruence).
  rewrite String.eqb_eq. split; congruence.
Qed.

Lemma known_name_In (x : option string) (names : list (option string)) :
  existsb (opt_eqb x) names = true <-> In x names.
Proof.
  rewrite existsb_exists. split.
  - intros [y [Hy He]]. apply opt_eqb_eq in He. now subst.
  - intros H. exists x. split; [exact H|now apply opt_eqb_eq].
Qed.

Lemma closeStep_fold (rels : list DependencyEdge) (u : list FieldRecord)
    (names : list (option string)) (c : nat) :
  fold_left closeStep rels (u, names, c) =
  (u ++ placeholdersFor names c rels,
   names ++ map field_caption (placeholdersFor names c rels),
   c + List.length (placeholdersFor names c rels)).
Proof.
  revert u names c. induction rels as [|e rels IH]; intros u names c.
  - cbn. now rewrite !app_nil_r, Nat.add_0_r.
  - cbn [fold_left placeholdersFor closeStep].
    destruct (existsb (opt_eqb (from e)) names); [apply IH|].
    rewrite IH. cbn [List.length map]. rewrite <- !app_assoc. cbn [app].
    f_equal. lia.
Qed.

Lemma placeholders_counters (rels : list DependencyEdge) (names : list (option string))
    (c : nat) :
  map counter (placeholdersFor names c rels) =
  seq c (List.length (placeholdersFor names c rels)).
Proof.
  revert names c. induction rels as [|e rels IH]; intros names c; [reflexivity|].
  cbn [placeholdersFor]. destruct (existsb (opt_eqb (from e)) names); [apply IH|].
  cbn. f_equal. apply IH.
Qed.

Lemma placeholders_shape (rels : list DependencyEdge) (names : list (option string))
    (c : nat) (p : FieldRecord) :
  In p (placeholdersFor names c rels) ->
  p = placeholderRecord (counter p) (field_caption p) /\
  (exists e, In e rels /\ from e = field_caption p) /\
  ~ In (field_caption p) names.
Proof.
  revert names c. induction rels as [|e rels IH]; intros names c H; [contradiction|].
  cbn [placeholdersFor] in H.
  destruct (existsb (opt_eqb (from e)) names) eqn:E.
  - destruct (IH _ _ H) as [H1 [[e' [H2 H3]] H4]].
    repeat split; [exact H1|exists e'; split; [now right|exact H3]|exact H4].
  - destruct H as [H|H].
    + subst p. cbn. repeat split.
      * exists e. split; [now left|reflexivity].
      * intros C. apply known_name_In in C. congruence.
    + destruct (IH _ _ H) as [H1 [[e' [H2 H3]] H4]].
      repeat split; [exact H1|exists e'; split; [now right|exact H3]|].
      intros C. apply H4. apply in_or_app. now left.
Qed.

Lemma placeholders_close (rels : list DependencyEdge) (names : list (option string))
    (c : nat) (e : DependencyEdge) :
  In e rels ->
  In (from e) names \/ In (from e) (map field_caption (placeholdersFor names c rels)).
Proof.
  revert names c. induction rels as [|e' rels IH]; intros names c H; [contradiction|].
  cbn [placeholdersFor].
  destruct (existsb (opt_eqb (from e')) names) eqn:E.
  - destruct H as [H|H]; [subst; left; now apply known_name_In|now apply IH].
  - cbn [map]. destruct H as [H|H].
    + subst. right. now left.
    + destruct (IH (names ++ [from e']) (S c) H) as [G|G].
      * apply in_app_or in G. destruct G as [G|[G|[]]]; [now left|].
        right. left. cbn. exact G.
      * right. now right.
Qed.

Lemma placeholders_NoDup (rels : list DependencyEdge) (names : list (option string))
    (c : nat) :
  NoDup (map field_caption (placeholdersFor names c rels)).
Proof.
  revert names c. induction rels as [|e rels IH]; intros names c; [constructor|].
  cbn [placeholdersFor]. destruct (existsb (opt_eqb (from e)) names); [apply IH|].
  cbn [map]. constructor; [|apply IH].
  intros C. apply in_map_iff in C. destruct C as [p [Hp Hin]].
  apply placeholders_shape in Hin. destruct Hin as [_ [_ Hn]].
  apply Hn. rewrite Hp. apply in_or_app. right. now left.
Qed.

(** *** The engine returns, and what it returns *)

Lemma assemble_fields (u : list FieldRecord) (c : nat) :
  fields (assemble u c) =
  u ++ placeholdersFor (map field_caption u) c (extractDependencies u).
Proof. unfold assemble. rewrite closeStep_fold. reflexivity. Qed.

Lemma assemble_relationships (u : list FieldRecord) (c : nat) :
  relationships (assemble u c) = extractDependencies u.
Proof. unfold assemble. rewrite closeStep_fold. reflexivity. Qed.

Lemma assemble_calcs (u : list FieldRecord) (c : nat) :
  calcs (assemble u c) = filter isCalcOrParam u.
Proof. unfold assemble. rewrite closeStep_fold. reflexivity. Qed.

Lemma extractDataFromTwb_ok (numberSign : string -> Z) (xmlDoc : node) :
  extractDataFromTwb numberSign xmlDoc =
  Ok (assemble (deduplicatedFields numberSign xmlDoc) (rawCounter xmlDoc)).
Proof.
  unfold extractDataFromTwb, deduplicatedFields, rewrittenFields, rawFields, rawCounter.
  destruct (collectFields xmlDoc) as [allFields0 c]. cbn [fst snd].
  rewrite rewriteAll_ok. reflexivity.
Qed.

Lemma deduplicatedFields_In (numberSign : string -> Z) (xmlDoc : node) (f : FieldRecord) :
  In f (deduplicatedFields numberSign xmlDoc) <->
  In f (dedupe [] (js_sort dedupCmp (rewrittenFields xmlDoc))).
Proof. unfold deduplicatedFields, uniqueFieldsOf. apply js_sort_In. Qed.

Lemma deduplicatedFields_NoDup (numberSign : string -> Z) (xmlDoc : node) :
  NoDup (map field_id (deduplicatedFields numberSign xmlDoc)).
Proof.
  unfold deduplicatedFields, uniqueFieldsOf.
  eapply Permutation_NoDup; [|apply dedupe_NoDup].
  apply Permutation_map. symmetry. apply js_sort_perm.
Qed.

Lemma edges_from_token (u : list FieldRecord) (e : DependencyEdge) :
  In e (extractDependencies u) ->
  (exists dep, from e = Some dep) /\ exists f, In f u /\ to e = field_caption f.
Proof.
  unfold extractDependencies. intros H. apply in_flat_map in H.
  destruct H as [f [Hf He]]. unfold edgesOfField in He.
  destruct (field_calculation f) as [formula|]; [|contradiction].
  destruct (truthy (Some formula)); [|contradiction].
  apply in_map_iff in He. destruct He as [dep [He _]]. subst e. cbn.
  split; [now exists dep|now exists f].
Qed.

(* ================================================================== *)
(** ** Closure of the dependency graph                                 *)
(* ================================================================== *)

(** C1. For every document the engine returns, and in what it returns
    every edge's [from] and [to] is the caption of a record of [fields].
    The list [fields] is the deduplicated fields followed by placeholders;
    the raw records carry the sequence numbers [0 .. rawCounter - 1] and the
    placeholders continue with [rawCounter, rawCounter + 1, ...]; each
    placeholder is a Default_Field of datasource "Unknown" named after the
    [from] of an edge; and every [from] that is no caption of a deduplicated
    field is the caption of a placeholder. *)
Theorem C1_edges_closed (numberSign : string -> Z) (xmlDoc : node) :
  exists out placeholders,
    extractDataFromTwb numberSign xmlDoc = Ok out /\
    fields out = deduplicatedFields numberSign xmlDoc ++ placeholders /\
    (forall e, In e (relationships out) ->
       (exists f, In f (fields out) /\ field_caption f = from e) /\
       (exists f, In f (fields out) /\ field_caption f = to e)) /\
    map counter (rawFields xmlDoc) = seq 0 (rawCounter xmlDoc) /\
    map counter placeholders = seq (rawCounter xmlDoc) (List.length placeholders) /\
    (forall p, In p placeholders ->
       p = placeholderRecord (counter p) (field_caption p) /\
       datasource p = Some "Unknown" /\
       category p = Default_Field /\
       exists e, In e (relationships out) /\ from e = field_caption p) /\
    (forall e, In e (relationships out) ->
       ~ In (from e) (map field_caption (deduplicatedFields numberSign xmlDoc)) ->
       exists p, In p placeholders /\ field_caption p = from e /\
                 datasource p = Some "Unknown" /\ category p = Default_Field /\
                 rawCounter xmlDoc <= counter p).
Proof.
  set (u := deduplicatedFields numberSign xmlDoc).
  set (c := rawCounter xmlDoc).
  exists (assemble u c), (placeholdersFor (map field_caption u) c (extractDependencies u)).
  rewrite extractDataFromTwb_ok, assemble_fields, assemble_relationships.
  fold u c. split; [reflexivity|]. split; [reflexivity|].
  assert (Hshape : forall p,
             In p (placeholdersFor (map field_caption u) c (extractDependencies u)) ->
             p = placeholderRecord (counter p) (field_caption p) /\
             datasource p = Some "Unknown" /\ category p = Default_Field /\
             exists e, In e (extractDependencies u) /\ from e = field_caption p).
  { intros p Hp. destruct (placeholders_shape _ _ _ _ Hp) as [Hr [He _]].
    split; [exact Hr|]. rewrite Hr. cbn. repeat split. exact He. }
  assert (Hclose : forall e, In e (extractDependencies u) ->
             ~ In (from e) (map field_caption u) ->
             exists p, In p (placeholdersFor (map field_caption u) c (extractDependencies u))
                       /\ field_caption p = from e).
  { intros e He Hn.
    destruct (placeholders_close _ (map field_caption u) c e He) as [G|G];
      [contradiction|].
    apply in_map_iff in G. destruct G as [p [Hp Hin]]. now exists p. }
  repeat split.
  - destruct (placeholders_close _ (map field_caption u) c e H) as [G|G];
      apply in_map_iff in G; destruct G as [f [Hf Hin]]; exists f;
      (split; [apply in_or_app; auto|exact Hf]).
  - destruct (edges_from_token u e H) as [_ [f [Hf Hto]]].
    exists f. split; [apply in_or_app; now left|now symmetry].
  - apply rawFields_counters.
  - apply placeholders_counters.
  - apply (Hshape p H).
  - apply (Hshape p H).
  - apply (Hshape p H).
  - apply (Hshape p H).
  - intros e He Hn. destruct (Hclose e He Hn) as [p [Hp Hc]].
    exists p. destruct (Hshape p Hp) as [_ [Hd [Hcat _]]].
    repeat split; try assumption.
    pose proof (placeholders_counters (extractDependencies u) (map field_caption u) c) as Hs.
    assert (Hin : In (counter p) (seq c (List.length
              (placeholdersFor (map field_caption u) c (extractDependencies u))))).
    { rewrite <- Hs. now apply in_map. }
    apply in_seq in Hin. lia.
Qed.

(** *** Which records survive the deduplication *)

Lemma StronglySorted_app {A : Type} (R : A -> A -> Prop) (l1 l2 : list A) :
  StronglySorted R l1 -> StronglySorted R l2 ->
  (forall a b, In a l1 -> In b l2 -> R a b) ->
  StronglySorted R (l1 ++ l2).
Proof.
  intros H1 H2 H. induction H1 as [|a l1 Hs IH Hf]; [exact H2|].
  cbn [app]. constructor.
  - apply IH. intros x y Hx Hy. apply H; [now right|exact Hy].
  - apply Forall_app. split; [exact Hf|].
    apply Forall_forall. intros y Hy. apply H; [now left|exact Hy].
Qed.

Lemma StronglySorted_split {A : Type} (R : A -> A -> Prop) (l1 l2 : list A) (x : A) :
  StronglySorted R (l1 ++ x :: l2) ->
  Forall (fun y => R y x) l1 /\ Forall (R x) l2.
Proof.
  induction l1 as [|a l1 IH]; cbn [app]; intros H.
  - inversion H; subst. split; [constructor|assumption].
  - inversion H as [|? ? Hs Hf]; subst. destruct (IH Hs) as [H1 H2].
    split; [|exact H2]. constructor; [|exact H1].
    rewrite Forall_forall in Hf. apply Hf. apply in_or_app. right. now left.
Qed.

Lemma StronglySorted_filter {A : Type} (R : A -> A -> Prop) (p : A -> bool) (l : list A) :
  StronglySorted R l -> StronglySorted R (filter p l).
Proof.
  induction 1 as [|a l Hs IH Hf]; cbn [filter]; [constructor|].
  destruct (p a); [|exact IH]. constructor; [exact IH|].
  apply Forall_forall. intros y Hy. apply filter_In in Hy.
  rewrite Forall_forall in Hf. now apply Hf.
Qed.

Lemma counters_sorted (l : list FieldRecord) (a n : nat) :
  map counter l = seq a n ->
  StronglySorted (fun x y => counter x < counter y) l.
Proof.
  revert a n. induction l as [|x l IH]; intros a n H; [constructor|].
  destruct n as [|n]; [discriminate H|]. cbn in H. injection H as Hx Hl.
  constructor; [now apply (IH _ _ Hl)|].
  apply Forall_forall. intros y Hy.
  pose proof (seq_tail_gt a n) as G. rewrite <- Hl, Forall_forall in G.
  rewrite Hx. apply G. now apply in_map.
Qed.

Lemma counters_inj (l : list FieldRecord) (a n : nat) (x y : FieldRecord) :
  map counter l = seq a n -> In x l -> In y l -> counter x = counter y -> x = y.
Proof.
  intros H. apply NoDup_map_eq. rewrite H. apply seq_NoDup.
Qed.

Lemma dedupOrder_asym (a b : FieldRecord) : dedupOrder a b -> dedupOrder b a -> False.
Proof.
  unfold dedupOrder. intros [[H1 H2]|[H1 H2]] [[H3 H4]|[H3 H4]]; try congruence; lia.
Qed.

Lemma js_sort_dedupCmp_sorted (l : list FieldRecord) (a n : nat) :
  map counter l = seq a n -> StronglySorted dedupOrder (js_sort dedupCmp l).
Proof.
  intros H. rewrite (js_sort_dedupCmp l a n H).
  pose proof (counters_sorted l a n H) as Hs.
  apply StronglySorted_app.
  - apply StronglySorted_filter with (p := fromParametersDs) in Hs.
    assert (G : forall l', StronglySorted (fun x y => counter x < counter y) l' ->
                Forall (fun y => fromParametersDs y = true) l' ->
                StronglySorted dedupOrder l').
    { induction 1 as [|z l' Hs' IH Hf]; intros Hall; [constructor|].
      inversion Hall as [|? ? Hz Hall']; subst. constructor; [now apply IH|].
      rewrite Forall_forall in *. intros y Hy. right. split.
      - rewrite Hz. symmetry. now apply Hall'.
      - now apply Hf. }
    apply G; [exact Hs|]. apply Forall_forall. intros y Hy.
    apply filter_In in Hy. tauto.
  - apply StronglySorted_filter with (p := fun f => negb (fromParametersDs f)) in Hs.
    assert (G : forall l', StronglySorted (fun x y => counter x < counter y) l' ->
                Forall (fun y => fromParametersDs y = false) l' ->
                StronglySorted dedupOrder l').
    { induction 1 as [|z l' Hs' IH Hf]; intros Hall; [constructor|].
      inversion Hall as [|? ? Hz Hall']; subst. constructor; [now apply IH|].
      rewrite Forall_forall in *. intros y Hy. right. split.
      - rewrite Hz. symmetry. now apply Hall'.
      - now apply Hf. }
    apply G; [exact Hs|]. apply Forall_forall. intros y Hy.
    apply filter_In in Hy. now apply negb_true_iff.
  - intros x y Hx Hy. apply filter_In in Hx. apply filter_In in Hy. left.
    split; [tauto|]. now apply negb_true_iff.
Qed.

(** A record survives exactly when it comes first, in the order of the
    sort, among the records of its id. *)
Lemma dedupe_sorted_iff (l : list FieldRecord) (a n : nat) (x : FieldRecord) :
  map counter l = seq a n -> In x l ->
  (In x (dedupe [] (js_sort dedupCmp l)) <->
   forall q, In q l -> field_id q = field_id x -> q = x \/ dedupOrder x q).
Proof.
  intros Hc Hx.
  pose proof (js_sort_dedupCmp_sorted l a n Hc) as Hs.
  assert (Hin : forall y, In y (js_sort dedupCmp l) <-> In y l) by (intros; apply js_sort_In).
  split.
  - intros Hd q Hq Hid.
    destruct (dedupe_covers [] (js_sort dedupCmp l) q) as [g [l1 [l2 [Hl [Hg [Hn Hgd]]]]]];
      [now apply Hin|intros []|].
    assert (g = x).
    { apply (NoDup_map_eq field_id (dedupe [] (js_sort dedupCmp l)));
        [apply dedupe_NoDup|assumption|assumption|congruence]. }
    subst g. rewrite Hl in Hs. destruct (StronglySorted_split _ _ _ _ Hs) as [_ H2].
    assert (Hq' : In q (l1 ++ x :: l2)) by (rewrite <- Hl; now apply Hin).
    apply in_app_or in Hq'. destruct Hq' as [Hq'|[Hq'|Hq']].
    + exfalso. apply Hn. now apply in_map.
    + left. now symmetry.
    + right. rewrite Forall_forall in H2. now apply H2.
  - intros H. apply Hin in Hx. destruct (in_split _ _ Hx) as [l1 [l2 Hl]].
    rewrite Hl. apply dedupe_first; [intros []|].
    intros C. apply in_map_iff in C. destruct C as [y [Hid Hy]].
    rewrite Hl in Hs. destruct (StronglySorted_split _ _ _ _ Hs) as [H1 _].
    rewrite Forall_forall in H1. specialize (H1 y Hy).
    assert (Hyl : In y l).
    { apply Hin. rewrite Hl. apply in_or_app. now left. }
    destruct (H y Hyl Hid) as [E|E].
    + subst y. apply (dedupOrder_asym x x H1 H1).
    + apply (dedupOrder_asym x y E H1).
Qed.

Lemma dedupOrder_rewritten (m : JsMap) (a b : FieldRecord) :
  dedupOrder (rewrittenField m a) (rewrittenField m b) <-> dedupOrder a b.
Proof.
  unfold dedupOrder.
  now rewrite !rewrittenField_fromParametersDs, !rewrittenField_counter.
Qed.

(** The same for the raw records of a document, named by their sequence
    numbers. *)
Lemma survives_iff (numberSign : string -> Z) (xmlDoc : node) (r : FieldRecord) :
  In r (rawFields xmlDoc) ->
  (hasCounter (counter r) (deduplicatedFields numberSign xmlDoc) <->
   forall q, In q (rawFields xmlDoc) -> field_id q = field_id r -> q = r \/ dedupOrder r q).
Proof.
  intros Hr.
  set (m := buildCalcMap (rawFields xmlDoc)).
  assert (Hrw : In (rewrittenField m r) (rewrittenFields xmlDoc)) by now apply in_map.
  pose proof (rewrittenFields_counters xmlDoc) as Hc.
  pose proof (dedupe_sorted_iff _ _ _ _ Hc Hrw) as Hiff.
  split.
  - intros [f [Hf Hcf]] q Hq Hid.
    apply deduplicatedFields_In in Hf.
    assert (f = rewrittenField m r).
    { apply (counters_inj _ _ _ f (rewrittenField m r) Hc).
      - apply dedupe_In in Hf. destruct Hf as [Hf _]. now apply js_sort_In in Hf.
      - exact Hrw.
      - now rewrite rewrittenField_counter. }
    subst f. apply Hiff with (q := rewrittenField m q) in Hf.
    + destruct Hf as [E|E].
      * left. apply (counters_inj _ _ _ q r (rawFields_counters xmlDoc) Hq Hr).
        now rewrite <- (rewrittenField_counter m q), E, rewrittenField_counter.
      * right. now apply dedupOrder_rewritten in E.
    + now apply in_map.
    + now rewrite !rewrittenField_id.
  - intros H. exists (rewrittenField m r). split; [|apply rewrittenField_counter].
    apply deduplicatedFields_In. apply Hiff. intros q' Hq' Hid.
    apply in_map_iff in Hq'. destruct Hq' as [q [Eq Hq]]. subst q'.
    rewrite !rewrittenField_id in Hid.
    destruct (H q Hq Hid) as [E|E]; [left; now subst|right].
    now apply dedupOrder_rewritten.
Qed.

(* ================================================================== *)
(** ** Precedence of the "Parameters" datasource                       *)
(* ================================================================== *)

Lemma fields_hasCounter (u : list FieldRecord) (c n : nat) :
  n < c -> (hasCounter n (fields (assemble u c)) <-> hasCounter n u).
Proof.
  intros Hn. rewrite assemble_fields. split.
  - intros [f [Hf Hc]]. apply in_app_or in Hf. destruct Hf as [Hf|Hf]; [now exists f|].
    exfalso.
    pose proof (placeholders_counters (extractDependencies u) (map field_caption u) c) as Hs.
    assert (Hin : In (counter f) (seq c (List.length
              (placeholdersFor (map field_caption u) c (extractDependencies u))))).
    { rewrite <- Hs. now apply in_map. }
    apply in_seq in Hin. lia.
  - intros [f [Hf Hc]]. exists f. split; [apply in_or_app; now left|exact Hc].
Qed.

Lemma raw_counter_lt (xmlDoc : node) (r : FieldRecord) :
  In r (rawFields xmlDoc) -> counter r < rawCounter xmlDoc.
Proof.
  intros H. apply (in_map counter) in H. rewrite rawFields_counters in H.
  apply in_seq in H. lia.
Qed.

Lemma fromParametersDs_true (f : FieldRecord) :
  fromParametersDs f = true <-> datasource_name f = Some "Parameters".
Proof.
  unfold fromParametersDs, eq_lit. destruct (datasource_name f) as [d|].
  - rewrite String.eqb_eq. split; congruence.
  - split; discriminate.
Qed.

Lemma fromParametersDs_false (f : FieldRecord) :
  fromParametersDs f = false <-> datasource_name f <> Some "Parameters".
Proof.
  rewrite <- fromParametersDs_true. destruct (fromParametersDs f); split; congruence.
Qed.

(** C2. When a raw record [p] of the datasource named "Parameters" and a
    raw record [o] of another datasource have the same id, the engine
    returns a field list in which a record of that id from "Parameters"
    is present and [o] is absent; [p] itself is present when no earlier
    record of "Parameters" has its id. In Scenario B, in either order of the
    two datasources, the field list is the one parameter record "Threshold",
    of category Parameters. *)
Theorem C2_parameters_survive (numberSign : string -> Z) :
  (forall (xmlDoc : node) (p o : FieldRecord),
      In p (rawFields xmlDoc) -> In o (rawFields xmlDoc) ->
      datasource_name p = Some "Parameters" ->
      datasource_name o <> Some "Parameters" ->
      field_id p = field_id o ->
      exists out,
        extractDataFromTwb numberSign xmlDoc = Ok out /\
        (exists s, In s (fields out) /\ field_id s = field_id p /\
                   datasource_name s = Some "Parameters") /\
        ~ hasCounter (counter o) (fields out) /\
        ((forall q, In q (rawFields xmlDoc) -> datasource_name q = Some "Parameters" ->
                    field_id q = field_id p -> counter p <= counter q) ->
         hasCounter (counter p) (fields out))) /\
  (exists out f,
      extractDataFromTwb numberSign scenarioB = Ok out /\
      fields out = [f] /\
      filter (fun g => opt_eqb (field_caption g) (Some "Threshold")) (fields out) = [f] /\
      f = paramRecord "Parameters" "Parameters" 0 thresholdParam /\
      category f = Parameters) /\
  (exists out f,
      extractDataFromTwb numberSign scenarioB_reversed = Ok out /\
      fields out = [f] /\
      filter (fun g => opt_eqb (field_caption g) (Some "Threshold")) (fields out) = [f] /\
      f = paramRecord "Parameters" "Parameters" 1 thresholdParam /\
      category f = Parameters).
Proof.
  split; [|split].
  - intros xmlDoc p o Hp Ho Hdp Hdo Hid.
    exists (assemble (deduplicatedFields numberSign xmlDoc) (rawCounter xmlDoc)).
    split; [apply extractDataFromTwb_ok|].
    apply fromParametersDs_true in Hdp. apply fromParametersDs_false in Hdo.
    assert (Hnot : ~ hasCounter (counter o) (deduplicatedFields numberSign xmlDoc)).
    { intros C.
      pose proof (proj1 (survives_iff numberSign xmlDoc o Ho) C p Hp Hid) as C'.
      destruct C' as [E|[[E _]|[E _]]]; subst; congruence. }
    assert (Hme : (forall q, In q (rawFields xmlDoc) -> datasource_name q = Some "Parameters" ->
                     field_id q = field_id p -> counter p <= counter q) ->
                  hasCounter (counter p) (deduplicatedFields numberSign xmlDoc)).
    { intros Hfirst. apply (survives_iff numberSign xmlDoc p Hp). intros q Hq Hq_id.
      destruct (fromParametersDs q) eqn:Eq.
      - pose proof (Hfirst q Hq (proj1 (fromParametersDs_true q) Eq) Hq_id) as Hle.
        destruct (Nat.eq_dec (counter p) (counter q)) as [E|E].
        + left. symmetry.
          now apply (counters_inj _ _ _ p q (rawFields_counters xmlDoc)).
        + right. right. split; [congruence|lia].
      - right. left. now split. }
    repeat split.
    + (* a survivor from "Parameters" *)
      set (m := buildCalcMap (rawFields xmlDoc)).
      destruct (dedupe_covers [] (js_sort dedupCmp (rewrittenFields xmlDoc))
                              (rewrittenField m p)) as [g [l1 [l2 [Hl [Hg [Hn Hgd]]]]]].
      { apply js_sort_In. now apply in_map. }
      { intros []. }
      assert (Hg_in : In g (rewrittenFields xmlDoc)).
      { apply dedupe_In in Hgd. destruct Hgd as [Hgd _]. now apply js_sort_In in Hgd. }
      pose proof (proj1 (dedupe_sorted_iff _ _ _ g (rewrittenFields_counters xmlDoc) Hg_in)
                        Hgd (rewrittenField m p)) as Hord.
      exists g. split; [|split].
      * rewrite assemble_fields. apply in_or_app. left.
        now apply deduplicatedFields_In.
      * now rewrite Hg, rewrittenField_id.
      * apply fromParametersDs_true.
        destruct Hord as [E|[[_ E]|[E _]]].
        -- now apply in_map.
        -- now symmetry.
        -- subst g. now rewrite rewrittenField_fromParametersDs.
        -- rewrite rewrittenField_fromParametersDs in E. congruence.
        -- rewrite rewrittenField_fromParametersDs in E. congruence.
    + intros C. apply fields_hasCounter in C; [contradiction|].
      now apply raw_counter_lt.
    + intros Hfirst. apply fields_hasCounter; [now apply raw_counter_lt|].
      now apply Hme.
  - eexists. eexists. split; [vm_compute; reflexivity|].
    repeat split.
  - eexists. eexists. split; [vm_compute; reflexivity|].
    repeat split.
Qed.

(** C2 at Scenario B: the parameter "Threshold" against the column of the
    same id in "Sales". *)
Lemma C2_parameters_survive_witness :
  let p := paramRecord "Parameters" "Parameters" 0 thresholdParam in
  let o := columnRecord "Sales" "Sales" false 1 thresholdColumn salesThresholdDs in
  In p (rawFields scenarioB) /\ In o (rawFields scenarioB) /\
  datasource_name p = Some "Parameters" /\
  datasource_name o <> Some "Parameters" /\
  field_id p = field_id o /\
  exists out,
    extractDataFromTwb (fun _ => 0%Z) scenarioB = Ok out /\
    (exists s, In s (fields out) /\ field_id s = field_id p /\
               datasource_name s = Some "Parameters") /\
    ~ hasCounter (counter o) (fields out) /\
    ((forall q, In q (rawFields scenarioB) -> datasource_name q = Some "Parameters" ->
                field_id q = field_id p -> counter p <= counter q) ->
     hasCounter (counter p) (fields out)).
Proof.
  intros p o.
  assert (Hp : In p (rawFields scenarioB)) by (vm_compute; left; reflexivity).
  assert (Ho : In o (rawFields scenarioB)) by (vm_compute; right; left; reflexivity).
  assert (Hdp : datasource_name p = Some "Parameters") by reflexivity.
  assert (Hdo : datasource_name o <> Some "Parameters") by (vm_compute; discriminate).
  assert (Hid : field_id p = field_id o) by reflexivity.
  repeat (split; [assumption|]).
  exact (proj1 (C2_parameters_survive (fun _ => 0%Z)) scenarioB p o Hp Ho Hdp Hdo Hid).
Defined.

(* ================================================================== *)
(** ** No priority for a datasource named in another case              *)
(* ================================================================== *)




(* ================================================================== *)
(** ** Uniqueness of the ids                                           *)
(* ================================================================== *)

Lemma str_length_app (x y : string) :
  String.length (x ++ y) = String.length x + String.length y.
Proof. induction x as [|a x IH]; cbn; [reflexivity|now rewrite IH]. Qed.

Lemma str_app_assoc (x y z : string) : ((x ++ y) ++ z = x ++ (y ++ z))%string.
Proof. induction x as [|a x IH]; cbn; [reflexivity|now rewrite IH]. Qed.

Lemma str_app_nil_r (x : string) : (x ++ "" = x)%string.
Proof. induction x as [|a x IH]; cbn; [reflexivity|now rewrite IH]. Qed.

Lemma append_cancel_r (x y z : string) : (x ++ z = y ++ z)%string -> x = y.
Proof.
  intros H.
  assert (L : String.length x = String.length y).
  { apply (f_equal String.length) in H. rewrite !str_length_app in H. lia. }
  revert y H L. induction x as [|a x IH]; intros [|b y] H L; try discriminate L.
  - reflexivity.
  - cbn in H, L. injection H as Ha Hr. injection L as L.
    f_equal; [exact Ha|now apply IH].
Qed.

Lemma wrap_inj (x y : string) : wrap x = wrap y -> x = y.
Proof.
  unfold wrap. intros H. cbn in H. injection H as H.
  now apply append_cancel_r in H.
Qed.

Lemma placeholders_ids_NoDup (u : list FieldRecord) (c : nat) :
  NoDup (map field_id (placeholdersFor (map field_caption u) c (extractDependencies u))).
Proof.
  set (ph := placeholdersFor (map field_caption u) c (extractDependencies u)).
  assert (E : map field_id ph = map (fun n => wrap (tmpl n)) (map field_caption ph)).
  { rewrite map_map. apply map_ext_in. intros p Hp.
    apply placeholders_shape in Hp. destruct Hp as [Hp _]. now rewrite Hp. }
  rewrite E. apply NoDup_map_NoDup_ForallPairs; [|apply placeholders_NoDup].
  intros a b Ha Hb Hab.
  assert (S : forall n, In n (map field_caption ph) -> exists dep, n = Some dep).
  { intros n Hn. apply in_map_iff in Hn. destruct Hn as [p [Hp Hin]].
    apply placeholders_shape in Hin. destruct Hin as [_ [[e [He Hfrom]] _]].
    destruct (edges_from_token u e He) as [[dep Hdep] _].
    exists dep. congruence. }
  destruct (S a Ha) as [x Hx], (S b Hb) as [y Hy]. subst a b.
  cbn in Hab. apply wrap_inj in Hab. now subst.
Qed.

(** C6 (as amended). The returned field list is the deduplicated fields
    followed by the placeholders; no two deduplicated fields share an id,
    and no two placeholders share an id. The id of a placeholder is its
    caption in brackets, and that caption is no caption of a deduplicated
    field. *)
Theorem C6_ids_unique_within_each_part (numberSign : string -> Z) (xmlDoc : node) :
  exists out placeholders,
    extractDataFromTwb numberSign xmlDoc = Ok out /\
    fields out = deduplicatedFields numberSign xmlDoc ++ placeholders /\
    NoDup (map field_id (deduplicatedFields numberSign xmlDoc)) /\
    NoDup (map field_id placeholders) /\
    (forall p, In p placeholders ->
       field_id p = wrap (tmpl (field_caption p)) /\
       ~ In (field_caption p)
            (map field_caption (deduplicatedFields numberSign xmlDoc))).
Proof.
  set (u := deduplicatedFields numberSign xmlDoc).
  exists (assemble u (rawCounter xmlDoc)),
         (placeholdersFor (map field_caption u) (rawCounter xmlDoc) (extractDependencies u)).
  split; [apply extractDataFromTwb_ok|].
  split; [apply assemble_fields|].
  split; [apply deduplicatedFields_NoDup|].
  split; [apply placeholders_ids_NoDup|].
  intros p Hp. apply placeholders_shape in Hp. destruct Hp as [Hr [_ Hn]].
  split; [now rewrite Hr|exact Hn].
Qed.

(** C6 as stated fails: the column [[A]] is declared twice, the calculation
    captioned "Q" claims the name of [[A]] and is then discarded as a
    duplicate, and the placeholder made for "Q" gets the id of the column
    [[Q]] captioned "Z". *)
Lemma C6_placeholder_id_collides :
  exists out,
    extractDataFromTwb (fun _ => 0%Z) shadowedCaption = Ok out /\
    map field_id (fields out) = ["[F]"; "[A]"; "[Q]"; "[Q]"] /\
    map field_caption (fields out) = [Some "F"; Some "P"; Some "Z"; Some "Q"] /\
    ~ NoDup (map field_id (fields out)).
Proof.
  eexists. split; [vm_compute; reflexivity|].
  split; [reflexivity|]. split; [reflexivity|].
  cbn. intros H.
  inversion H as [|? ? _ H1]; subst. inversion H1 as [|? ? _ H2]; subst.
  inversion H2 as [|? ? H3 _]; subst. apply H3. now left.
Qed.

(* ================================================================== *)
(** ** The engine never raises                                         *)
(* ================================================================== *)

Ltac rewrite_missing :=
  repeat match goal with
         | H : getAttribute _ _ = _ |- _ => rewrite H
         | H : getElementsByTagName _ _ = _ |- _ => rewrite H
         end.

(** C8. For every document the engine returns a result. A column that
    lacks an attribute gets [null] in the member read from it, [false] in
    the flags, and the fallbacks [[col_<counter>]], id and name for id, name
    and caption; a parameter that lacks its name gets the id [[null]]; a
    datasource without a name is "Unknown Datasource". *)
Theorem C8_never_raises (numberSign : string -> Z) :
  (forall xmlDoc, exists out, extractDataFromTwb numberSign xmlDoc = Ok out) /\
  (forall dsName dsCaption isParameterDs n col parent,
      let r := columnRecord dsName dsCaption isParameterDs n col parent in
      (getAttribute col "alias" = None -> alias r = None) /\
      (getAttribute col "datatype" = None -> field_datatype r = None) /\
      (getAttribute col "default-aggregation" = None -> field_def_agg r = None) /\
      (getAttribute col "role" = None -> field_role r = None) /\
      (getAttribute col "type" = None -> field_type r = None) /\
      (getAttribute col "hidden" = None -> field_hidden r = Some false) /\
      (getAttribute col "semantic-role" = None ->
         field_is_nominal r = Some false /\ field_is_ordinal r = Some false /\
         field_is_quantitative r = Some false) /\
      (getAttribute col "id" = None -> getAttribute col "name" = None ->
         field_id r = wrap ("col_" ++ string_of_nat n)) /\
      (getAttribute col "name" = None -> field_name r = Some (field_id r)) /\
      (getAttribute col "caption" = None -> field_caption r = field_name r) /\
      (getElementsByTagName col "calculation" = [] ->
         field_calculation r = None /\ field_calculation_bk r = None) /\
      (forall c rest, getElementsByTagName col "calculation" = c :: rest ->
         getAttribute c "formula" = None ->
         field_calculation r = None /\ field_calculation_bk r = None) /\
      (getElementsByTagName col "desc" = [] -> field_desc r = None)) /\
  (forall dsName dsCaption n param,
      let r := paramRecord dsName dsCaption n param in
      (getAttribute param "alias" = None -> alias r = None) /\
      (getAttribute param "datatype" = None -> field_datatype r = None) /\
      (getAttribute param "name" = None -> field_name r = None /\ field_id r = "[null]") /\
      (getAttribute param "caption" = None -> field_caption r = getAttribute param "name")) /\
  (exists out,
      extractDataFromTwb numberSign bareDatasource = Ok out /\
      fields out =
        [columnRecord "Unknown Datasource" "Unknown Datasource" false 0
                      bareColumn bareDatasource] /\
      map field_id (fields out) = ["[col_0]"]) /\
  (exists out,
      extractDataFromTwb numberSign bareParameters = Ok out /\
      rawFields bareParameters =
        [columnRecord "PARAMETERS" "PARAMETERS" true 0 bareColumn bareParameters;
         paramRecord "PARAMETERS" "PARAMETERS" 1 bareParam] /\
      Permutation (fields out) (rawFields bareParameters)).
Proof.
  split; [|split; [|split; [|split]]].
  - intros xmlDoc. eexists. apply extractDataFromTwb_ok.
  - intros dsName dsCaption isParameterDs n col parent r. subst r.
    unfold columnRecord, calculationFormulaOf, descriptionOf.
    cbn [alias field_datatype field_def_agg field_role field_type field_hidden
         field_is_nominal field_is_ordinal field_is_quantitative field_id
         field_name field_caption field_calculation field_calculation_bk field_desc].
    repeat split; intros; rewrite_missing; reflexivity.
  - intros dsName dsCaption n param r. subst r. unfold paramRecord.
    cbn [alias field_datatype field_id field_name field_caption].
    repeat split; intros; rewrite_missing; reflexivity.
  - eexists. split; [vm_compute; reflexivity|]. split; reflexivity.
  - eexists. split; [apply extractDataFromTwb_ok|]. split; [reflexivity|].
    rewrite assemble_fields.
    assert (E : extractDependencies (deduplicatedFields numberSign bareParameters) = []).
    { unfold extractDependencies.
      assert (G : forall f, In f (deduplicatedFields numberSign bareParameters) ->
                            edgesOfField f = []).
      { intros f Hf. apply deduplicatedFields_In in Hf. apply dedupe_In in Hf.
        destruct Hf as [Hf _]. apply js_sort_In in Hf.
        vm_compute in Hf. destruct Hf as [Hf|[Hf|[]]]; subst f; reflexivity. }
      induction (deduplicatedFields numberSign bareParameters) as [|f l IH];
        [reflexivity|].
      cbn [flat_map]. rewrite (G f (or_introl eq_refl)). apply IH.
      intros g Hg. apply G. now right. }
    rewrite E. cbn [placeholdersFor]. rewrite app_nil_r.
    unfold deduplicatedFields, uniqueFieldsOf.
    rewrite js_sort_perm. vm_compute. reflexivity.
Qed.

(* ================================================================== *)
(** ** The rewriting step leaves the original formula alone            *)
(* ================================================================== *)

(** C9. The rewriting step returns, for every map and every list of
    records, the same records with nothing but [field_calculation] changed.
    A column record is created with the formula of its [<calculation>] in
    both [field_calculation] and [field_calculation_bk]. Hence every record
    the engine returns is a placeholder or a raw record with nothing but
    [field_calculation] changed, whose [field_calculation_bk] is the formula
    the raw record was created with. *)
Theorem C9_original_formula_untouched :
  (forall (m : JsMap) (l : list FieldRecord),
      exists l', rewriteAll m l = Ok l' /\
                 Forall2 (fun r f => f = set_field_calculation r (field_calculation f)) l l') /\
  (forall dsName dsCaption isParameterDs n col parent,
      let r := columnRecord dsName dsCaption isParameterDs n col parent in
      field_calculation r = calculationFormulaOf col /\
      field_calculation_bk r = calculationFormulaOf col) /\
  (forall (numberSign : string -> Z) (xmlDoc : node),
      exists out,
        extractDataFromTwb numberSign xmlDoc = Ok out /\
        forall f, In f (fields out) ->
          (exists r, In r (rawFields xmlDoc) /\
                     f = set_field_calculation r (field_calculation f) /\
                     field_calculation_bk f = field_calculation r /\
                     field_calculation_bk f = field_calculation_bk r) \/
          f = placeholderRecord (counter f) (field_caption f)).
Proof.
  split; [|split].
  - intros m l. exists (map (rewrittenField m) l). split; [apply rewriteAll_ok|].
    induction l as [|r l IH]; cbn [map]; constructor; [apply rewrittenField_frame|exact IH].
  - intros. split; reflexivity.
  - intros numberSign xmlDoc.
    exists (assemble (deduplicatedFields numberSign xmlDoc) (rawCounter xmlDoc)).
    split; [apply extractDataFromTwb_ok|].
    intros f Hf. rewrite assemble_fields in Hf. apply in_app_or in Hf.
    destruct Hf as [Hf|Hf].
    + left. apply deduplicatedFields_In in Hf. apply dedupe_In in Hf.
      destruct Hf as [Hf _]. apply js_sort_In in Hf.
      unfold rewrittenFields in Hf. apply in_map_iff in Hf.
      destruct Hf as [r [Hr Hin]]. exists r. split; [exact Hin|].
      pose proof (rawFields_raw xmlDoc) as Hraw. rewrite Forall_forall in Hraw.
      destruct (Hraw r Hin) as [Hbk _].
      subst f. rewrite rewrittenField_frame at 1.
      split; [reflexivity|]. rewrite rewrittenField_frame. cbn.
      split; [exact Hbk|reflexivity].
    + right. apply placeholders_shape in Hf. tauto.
Qed.

(* ================================================================== *)
(** ** Scenario A                                                      *)
(* ================================================================== *)

(** C5. For Scenario A the engine returns three fields, the three raw
    records: "Sales" and "Cost" are Default_Field, "Profit Ratio" is
    Calculated_Field with the rewritten formula equal to the original
    "[Sales]/[Cost]"; the returned list is in presentation order, which
    puts the calculation first. The edges are Sales -> Profit Ratio and
    Cost -> Profit Ratio. The same holds when the bracketed text is the name
    of each column instead of its id. *)
Theorem C5_scenario_A (numberSign : string -> Z) :
  (exists out,
      extractDataFromTwb numberSign scenarioA = Ok out /\
      List.length (fields out) = 3 /\
      fields out =
        [columnRecord "Sales" "Sales" false 2 profitRatioColumn scenarioA_ds;
         columnRecord "Sales" "Sales" false 1 costColumn scenarioA_ds;
         columnRecord "Sales" "Sales" false 0 salesColumn scenarioA_ds] /\
      map summary (fields out) =
        [(Some "Profit Ratio", Calculated_Field, Some "[Sales]/[Cost]", Some "[Sales]/[Cost]");
         (Some "Cost", Default_Field, None, None);
         (Some "Sales", Default_Field, None, None)] /\
      map (fun f => (field_caption f, category f)) (rawFields scenarioA) =
        [(Some "Sales", Default_Field); (Some "Cost", Default_Field);
         (Some "Profit Ratio", Calculated_Field)] /\
      Permutation (fields out) (rawFields scenarioA) /\
      relationships out =
        [ {| from := Some "Sales"; to := Some "Profit Ratio" |};
          {| from := Some "Cost"; to := Some "Profit Ratio" |} ]) /\
  (exists out,
      extractDataFromTwb numberSign scenarioA_named = Ok out /\
      List.length (fields out) = 3 /\
      map summary (fields out) =
        [(Some "Profit Ratio", Calculated_Field, Some "[Sales]/[Cost]", Some "[Sales]/[Cost]");
         (Some "Cost", Default_Field, None, None);
         (Some "Sales", Default_Field, None, None)] /\
      relationships out =
        [ {| from := Some "Sales"; to := Some "Profit Ratio" |};
          {| from := Some "Cost"; to := Some "Profit Ratio" |} ]).
Proof.
  split.
  - eexists. split; [vm_compute; reflexivity|].
    split; [reflexivity|]. split; [reflexivity|]. split; [reflexivity|].
    split; [reflexivity|]. split; [|reflexivity].
    cbn [fields]. change (rawFields scenarioA) with
      [columnRecord "Sales" "Sales" false 0 salesColumn scenarioA_ds;
       columnRecord "Sales" "Sales" false 1 costColumn scenarioA_ds;
       columnRecord "Sales" "Sales" false 2 profitRatioColumn scenarioA_ds].
    apply Permutation_rev.
  - eexists. split; [vm_compute; reflexivity|]. repeat split.
Qed.

(* ================================================================== *)
(** ** The two dependency scans                                        *)
(* ================================================================== *)

(** C7. The token scan of the rewritten formulas and the containment scan
    of the original formulas disagree on the fields of some documents. When
    a formula is written with the caption "Profit" of a field whose
    identifier is [Calculation_1], the token scan has the edge
    Profit -> Double and the containment scan has no edge. When two fields
    share the caption "X", the containment scan has the edge X -> X and the
    token scan has no edge. *)
Theorem C7_scans_disagree (numberSign : string -> Z) :
  (exists out,
      extractDataFromTwb numberSign captionReference = Ok out /\
      (exists f, In f (fields out) /\ field_caption f <> Some (cleanIdOf f)) /\
      extractDependencies (fields out) =
        [ {| from := Some "Profit"; to := Some "Double" |} ] /\
      analyzeDependencies (fields out) (calcs out) = Ok [] /\
      exists e, In e (extractDependencies (fields out)) /\
                forall l, analyzeDependencies (fields out) (calcs out) = Ok l -> ~ In e l) /\
  (exists out,
      extractDataFromTwb numberSign sharedCaption = Ok out /\
      (exists f, In f (fields out) /\ field_caption f <> Some (cleanIdOf f)) /\
      extractDependencies (fields out) = [] /\
      analyzeDependencies (fields out) (calcs out) =
        Ok [ {| from := Some "X"; to := Some "X" |} ]).
Proof.
  split.
  - eexists. split; [vm_compute; reflexivity|].
    split; [|split; [reflexivity|split; [reflexivity|]]].
    + eexists. split; [left; reflexivity|]. vm_compute. discriminate.
    + eexists. split; [left; reflexivity|].
      intros l Hl. vm_compute in Hl. injection Hl as <-. intros [].
  - eexists. split; [vm_compute; reflexivity|].
    split; [|split; reflexivity].
    eexists. split; [left; reflexivity|]. vm_compute. discriminate.
Qed.

(* ================================================================== *)
(** ** The rewriting of a formula, token by token                      *)
(* ================================================================== *)

(** *** Characters and case *)

Lemma canon_open (c : ascii) : canon c = "["%char <-> c = "["%char.
Proof.
  destruct c as [[] [] [] [] [] [] [] []]; vm_compute; split; congruence.
Qed.

Lemma canon_close (c : ascii) : canon c = "]"%char <-> c = "]"%char.
Proof.
  destruct c as [[] [] [] [] [] [] [] []]; vm_compute; split; congruence.
Qed.

Lemma canon_bracket (b : bool) : canon (bracket_char b) = bracket_char b.
Proof. destruct b; reflexivity. Qed.

Lemma not_bracket (c : ascii) :
  is_bracket c = false <-> c <> "["%char /\ c <> "]"%char.
Proof.
  unfold is_bracket. rewrite orb_false_iff, !Ascii.eqb_neq. tauto.
Qed.

Lemma canon_not_bracket (a : ascii) (b : bool) :
  is_bracket a = false -> (canon a =? bracket_char b)%char = false.
Proof.
  intros H. apply not_bracket in H. apply Ascii.eqb_neq. intros C.
  destruct b; cbn [bracket_char] in C;
    [apply (proj1 (canon_open a)) in C|apply (proj1 (canon_close a)) in C]; tauto.
Qed.

Lemma clean_cons (a : ascii) (s : string) :
  clean (String a s) = true <-> is_bracket a = false /\ clean s = true.
Proof.
  unfold clean. cbn. rewrite andb_true_iff, negb_true_iff. tauto.
Qed.

Lemma clean_app (x y : string) :
  clean (x ++ y) = true <-> clean x = true /\ clean y = true.
Proof.
  induction x as [|a x IH]; cbn [String.append].
  - unfold clean at 2. cbn. tauto.
  - rewrite !clean_cons, IH. tauto.
Qed.

Lemma eq_ci_cons (a b : ascii) (x y : string) :
  eq_ci (String a x) (String b y) = (canon a =? canon b)%char && eq_ci x y.
Proof. reflexivity. Qed.

Lemma eq_ci_refl (x : string) : eq_ci x x = true.
Proof. apply String.eqb_refl. Qed.

Lemma eq_ci_sym (x y : string) : eq_ci x y = eq_ci y x.
Proof. apply String.eqb_sym. Qed.

Lemma eq_ci_trans (x y z : string) :
  eq_ci x y = true -> eq_ci y z = true -> eq_ci x z = true.
Proof.
  unfold eq_ci. rewrite !String.eqb_eq. congruence.
Qed.

Lemma eq_ci_length (x y : string) :
  eq_ci x y = true -> String.length x = String.length y.
Proof.
  revert y. induction x as [|a x IH]; intros [|b y] H; try discriminate H.
  - reflexivity.
  - rewrite eq_ci_cons in H. apply andb_true_iff in H. cbn. f_equal. now apply IH.
Qed.

(** *** Cutting and joining *)

Lemma join_split (s : string) :
  join (fst (split_brackets s)) (snd (split_brackets s)) = s.
Proof.
  unfold join. induction s as [|c s IH]; [reflexivity|].
  cbn [split_brackets]. destruct (split_brackets s) as [u0 l]. cbn [fst snd] in IH.
  destruct (Ascii.eqb_spec c "["); [subst c; cbn; now rewrite IH|].
  destruct (Ascii.eqb_spec c "]"); [subst c; cbn; now rewrite IH|].
  cbn. now rewrite IH.
Qed.

Lemma split_clean (s : string) :
  clean (fst (split_brackets s)) = true /\ clean_chunks (snd (split_brackets s)).
Proof.
  induction s as [|c s IH]; [split; [reflexivity|constructor]|].
  cbn [split_brackets]. destruct (split_brackets s) as [u0 l]. cbn [fst snd] in IH.
  destruct IH as [H0 Hl].
  destruct (Ascii.eqb_spec c "["); [split; [reflexivity|now constructor]|].
  destruct (Ascii.eqb_spec c "]"); [split; [reflexivity|now constructor]|].
  cbn [fst snd]. split; [|exact Hl]. apply clean_cons. split; [|exact H0].
  now apply not_bracket.
Qed.

Lemma split_join (u0 : string) (l : list Chunk) :
  clean u0 = true -> clean_chunks l -> split_brackets (join u0 l) = (u0, l).
Proof.
  unfold join. intros H0 Hl. revert u0 H0.
  induction Hl as [|[b u] l Hu Hl IH]; intros u0 H0.
  - cbn [join_chunks]. rewrite str_app_nil_r.
    induction u0 as [|a u0 IHu]; [reflexivity|].
    apply clean_cons in H0. destruct H0 as [Ha H0]. apply not_bracket in Ha.
    cbn [split_brackets]. rewrite (IHu H0).
    destruct (Ascii.eqb_spec a "["); [tauto|].
    destruct (Ascii.eqb_spec a "]"); [tauto|reflexivity].
  - cbn [snd] in Hu. induction u0 as [|a u0 IHu].
    + cbn [String.append join_chunks split_brackets]. rewrite (IH u Hu).
      destruct b; reflexivity.
    + apply clean_cons in H0. destruct H0 as [Ha H0]. apply not_bracket in Ha.
      cbn [String.append split_brackets]. rewrite (IHu H0).
      destruct (Ascii.eqb_spec a "["); [tauto|].
      destruct (Ascii.eqb_spec a "]"); [tauto|reflexivity].
Qed.

Lemma map_tokens_clean (t : string -> string) (l : list Chunk) :
  (forall x, clean x = true -> clean (t x) = true) ->
  clean_chunks l -> clean_chunks (map_tokens t l).
Proof.
  intros Ht Hl. induction Hl as [|[b u] l Hu Hl IH]; [constructor|].
  cbn [map_tokens]. constructor; [|exact IH]. cbn [snd] in *.
  destruct (b && closes_next l); [now apply Ht|exact Hu].
Qed.

Lemma map_tokens_closes_next (t : string -> string) (l : list Chunk) :
  closes_next (map_tokens t l) = closes_next l.
Proof. destruct l as [|[[] u] l]; reflexivity. Qed.

Lemma map_tokens_compose (t1 t2 : string -> string) (l : list Chunk) :
  map_tokens t2 (map_tokens t1 l) = map_tokens (fun x => t2 (t1 x)) l.
Proof.
  induction l as [|[b u] l IH]; [reflexivity|].
  cbn [map_tokens]. rewrite map_tokens_closes_next, IH.
  destruct (b && closes_next l); reflexivity.
Qed.

Lemma map_tokens_ext (t1 t2 : string -> string) (l : list Chunk) :
  (forall x, t1 x = t2 x) -> map_tokens t1 l = map_tokens t2 l.
Proof.
  intros H. induction l as [|[b u] l IH]; [reflexivity|].
  cbn [map_tokens]. now rewrite IH, H.
Qed.

Lemma map_tokens_id (l : list Chunk) : map_tokens (fun x => x) l = l.
Proof.
  induction l as [|[b u] l IH]; [reflexivity|].
  cbn [map_tokens]. rewrite IH. destruct (b && closes_next l); reflexivity.
Qed.


(** *** One substitution, on the chunks *)

Lemma prefix_ci_token (k u : string) (l : list Chunk) :
  clean k = true -> clean u = true ->
  prefix_ci (k ++ "]") (u ++ join_chunks l) = eq_ci u k && closes_next l.
Proof.
  revert u. induction k as [|a k IH]; intros u Hk Hu.
  - cbn [String.append]. destruct u as [|a' u].
    + cbn [String.append]. destruct l as [|[[] w] l]; reflexivity.
    + apply clean_cons in Hu. destruct Hu as [Ha _].
      cbn [String.append prefix_ci].
      change (canon "]") with (bracket_char false).
      rewrite Ascii.eqb_sym, (canon_not_bracket a' false Ha). reflexivity.
  - apply clean_cons in Hk. destruct Hk as [Ha Hk]. cbn [String.append].
    destruct u as [|a' u].
    + cbn [String.append]. destruct l as [|[b w] l]; [reflexivity|].
      cbn [join_chunks prefix_ci]. rewrite canon_bracket, (canon_not_bracket a b Ha).
      reflexivity.
    + apply clean_cons in Hu. destruct Hu as [_ Hu].
      cbn [String.append prefix_ci]. rewrite (IH u Hk Hu), eq_ci_cons.
      rewrite (Ascii.eqb_sym (canon a) (canon a')). now rewrite andb_assoc.
Qed.

Lemma no_dollar_cons (a : ascii) (s : string) :
  no_dollar (String a s) = true <-> (a =? "$")%char = false /\ no_dollar s = true.
Proof.
  unfold no_dollar. cbn. rewrite andb_true_iff, negb_true_iff. tauto.
Qed.

Lemma no_dollar_app (x y : string) :
  no_dollar (x ++ y) = true <-> no_dollar x = true /\ no_dollar y = true.
Proof.
  induction x as [|a x IH]; cbn [String.append].
  - unfold no_dollar at 2. cbn. tauto.
  - rewrite !no_dollar_cons, IH. tauto.
Qed.

Lemma no_dollar_wrap (c : string) : no_dollar c = true -> no_dollar (wrap c) = true.
Proof.
  intros H. unfold wrap. apply no_dollar_app. split; [reflexivity|].
  apply no_dollar_app. split; [exact H|reflexivity].
Qed.

Lemma getSubstitution_plain (matched before after t : string) :
  no_dollar t = true -> getSubstitution matched before after t = t.
Proof.
  induction t as [|a t IH]; intros H; [reflexivity|].
  apply no_dollar_cons in H. destruct H as [Ha H].
  cbn [getSubstitution]. rewrite Ha. now rewrite IH.
Qed.

Section OneKey.
Variables (lit t : string).
Hypothesis lit_nonempty : lit <> EmptyString.
Hypothesis t_plain : no_dollar t = true.

Lemma replace_from_before (s b b' : string) (n : nat) :
  replace_from lit t b n s = replace_from lit t b' n s.
Proof.
  revert b b' n. induction s as [|ch r IH]; intros b b' n.
  - cbn [replace_from]. destruct n; [|reflexivity].
    destruct lit; [contradiction|reflexivity].
  - cbn [replace_from]. destruct n as [|n]; [|apply IH].
    rewrite !getSubstitution_plain by exact t_plain.
    destruct (prefix_ci lit (String ch r)).
    + f_equal. destruct (String.length lit); [f_equal|]; apply IH.
    + f_equal. apply IH.
Qed.

Lemma replace_from_skip (s b : string) (n : nat) :
  replace_from lit t b n s = replace_gi lit t (drop n s).
Proof.
  unfold replace_gi. revert b n. induction s as [|ch r IH]; intros b n.
  - destruct n; [apply replace_from_before|].
    cbn [replace_from drop]. destruct lit; [contradiction|reflexivity].
  - destruct n as [|n]; [apply replace_from_before|].
    cbn [replace_from drop]. apply IH.
Qed.

Lemma replace_gi_nil : replace_gi lit t "" = "".
Proof. unfold replace_gi. cbn. destruct lit; [contradiction|reflexivity]. Qed.

Lemma replace_gi_miss (ch : ascii) (r : string) :
  prefix_ci lit (String ch r) = false ->
  replace_gi lit t (String ch r) = String ch (replace_gi lit t r).
Proof.
  intros H. unfold replace_gi. cbn [replace_from]. rewrite H. f_equal.
  apply replace_from_before.
Qed.

Lemma replace_gi_hit (s : string) :
  prefix_ci lit s = true ->
  replace_gi lit t s = (t ++ replace_gi lit t (drop (String.length lit) s))%string.
Proof.
  intros H. destruct s as [|ch r].
  - destruct lit; [contradiction|discriminate H].
  - unfold replace_gi at 1. cbn [replace_from]. rewrite H.
    rewrite getSubstitution_plain by exact t_plain. f_equal.
    destruct (String.length lit) as [|n] eqn:E.
    + destruct lit; [contradiction|discriminate E].
    + cbn [drop]. apply replace_from_skip.
Qed.

End OneKey.

Lemma drop_app_length (x y : string) : drop (String.length x) (x ++ y) = y.
Proof. induction x as [|a x IH]; [reflexivity|exact IH]. Qed.

Lemma drop_token (u k rest : string) :
  String.length u = String.length k ->
  drop (String.length (wrap k)) (String "[" (u ++ String "]" rest)) = rest.
Proof.
  intros H. unfold wrap. cbn [String.append String.length drop].
  rewrite str_length_app. cbn [String.length]. rewrite <- H.
  replace (String.length u + 1) with (String.length (u ++ "]"))
    by (rewrite str_length_app; reflexivity).
  change (String "]" rest) with ("]" ++ rest)%string.
  rewrite <- str_app_assoc. apply drop_app_length.
Qed.

Lemma wrap_nonempty (k : string) : wrap k <> EmptyString.
Proof. discriminate. Qed.

Section OneKeyOnChunks.
Variables (k c : string).
Hypothesis k_clean : clean k = true.
Hypothesis c_plain : no_dollar c = true.

Lemma replace_gi_text (u rest : string) :
  clean u = true ->
  replace_gi (wrap k) (wrap c) (u ++ rest) = (u ++ replace_gi (wrap k) (wrap c) rest)%string.
Proof.
  intros Hu. induction u as [|a u IH]; [reflexivity|].
  apply clean_cons in Hu. destruct Hu as [Ha Hu]. cbn [String.append].
  rewrite replace_gi_miss;
    [now rewrite IH|apply wrap_nonempty|now apply no_dollar_wrap|].
  cbn [wrap String.append prefix_ci].
  change (canon "[") with (bracket_char true).
  rewrite Ascii.eqb_sym, (canon_not_bracket a true Ha). reflexivity.
Qed.

Lemma replace_gi_chunks (n : nat) (l : list Chunk) :
  List.length l <= n -> clean_chunks l ->
  replace_gi (wrap k) (wrap c) (join_chunks l) = join_chunks (map_tokens (token_step k c) l).
Proof.
  revert l. induction n as [|n IH]; intros l Hn Hl.
  - destruct l; [|cbn in Hn; lia].
    apply replace_gi_nil, wrap_nonempty.
  - destruct l as [|[b u] l]; [apply replace_gi_nil, wrap_nonempty|].
    inversion Hl as [|? ? Hu Hl']; subst. cbn [snd] in Hu. cbn [List.length] in Hn.
    cbn [join_chunks map_tokens]. destruct b.
    + assert (Hp : prefix_ci (wrap k) (String "[" (u ++ join_chunks l)) =
                   eq_ci u k && closes_next l).
      { cbn [wrap String.append prefix_ci]. rewrite Ascii.eqb_refl.
        now rewrite prefix_ci_token. }
      cbn [bracket_char andb].
      destruct (eq_ci u k) eqn:Eu; [destruct (closes_next l) eqn:El|]; cbn [andb] in Hp.
      * destruct l as [|[[] w] l'']; try discriminate El.
        inversion Hl' as [|? ? Hw Hl'']; subst. cbn [snd] in Hw.
        rewrite replace_gi_hit;
          [|apply wrap_nonempty|now apply no_dollar_wrap|exact Hp].
        cbn [join_chunks bracket_char].
        rewrite (drop_token u k _ (eq_ci_length u k Eu)).
        rewrite (replace_gi_text w _ Hw), (IH l''); [|cbn in Hn; lia|exact Hl''].
        change (token_step k c u) with (if eq_ci u k then c else u). rewrite Eu.
        cbn [map_tokens join_chunks bracket_char andb]. unfold wrap.
        cbn [String.append]. f_equal. rewrite str_app_assoc. reflexivity.
      * rewrite replace_gi_miss;
          [|apply wrap_nonempty|now apply no_dollar_wrap|exact Hp].
        rewrite (replace_gi_text u _ Hu), (IH l); [reflexivity|lia|exact Hl'].
      * rewrite replace_gi_miss;
          [|apply wrap_nonempty|now apply no_dollar_wrap|exact Hp].
        rewrite (replace_gi_text u _ Hu), (IH l); [|lia|exact Hl'].
        change (token_step k c u) with (if eq_ci u k then c else u). rewrite Eu. now destruct (closes_next l).
    + cbn [bracket_char andb].
      rewrite replace_gi_miss;
        [|apply wrap_nonempty|now apply no_dollar_wrap|reflexivity].
      rewrite (replace_gi_text u _ Hu), (IH l); [reflexivity|lia|exact Hl'].
Qed.

Lemma replace_gi_join (u0 : string) (l : list Chunk) :
  clean u0 = true -> clean_chunks l ->
  replace_gi (wrap k) (wrap c) (join u0 l) = join u0 (map_tokens (token_step k c) l).
Proof.
  intros H0 Hl. unfold join. rewrite (replace_gi_text u0 _ H0).
  now rewrite (replace_gi_chunks (List.length l) l (le_n _) Hl).
Qed.

End OneKeyOnChunks.

(** *** The whole pass, on the chunks *)

Lemma map_get_key (m : JsMap) (k : string) :
  In k (map_keys m) -> exists v, map_get k m = Some v.
Proof.
  unfold map_get, map_keys. induction m as [|[k' v'] m IH]; intros H; [contradiction|].
  cbn [assoc]. destruct (String.eqb_spec k' k); [now exists v'|].
  destruct H as [H|H]; [cbn in H; contradiction|now apply IH].
Qed.

Lemma take_app_length (x y : string) : take (String.length x) (x ++ y) = x.
Proof. induction x as [|a x IH]; [reflexivity|cbn; now rewrite IH]. Qed.

Lemma unwrap_wrap (c : string) : unwrap (wrap c) = c.
Proof.
  unfold unwrap, wrap. cbn [String.append String.length drop].
  rewrite str_length_app. cbn [String.length].
  replace (S (String.length c + 1) - 2) with (String.length c) by lia.
  apply take_app_length.
Qed.

Lemma tokenOfKey_step (m : JsMap) (k c x : string) :
  map_get k m = Some (wrap c) -> tokenOfKey m x k = token_step k c x.
Proof.
  intros H. unfold tokenOfKey, token_step. rewrite H. now rewrite unwrap_wrap.
Qed.

Lemma token_step_clean (k c x : string) :
  clean c = true -> clean x = true -> clean (token_step k c x) = true.
Proof. intros Hc Hx. unfold token_step. now destruct (eq_ci x k). Qed.

Section Pass.
Variable m : JsMap.
Hypothesis names : well_named m.

Lemma key_name (k : string) :
  In k (map_keys m) ->
  exists c, map_get k m = Some (wrap c) /\ clean k = true /\
            clean c = true /\ no_dollar c = true.
Proof.
  intros Hk. destruct (map_get_key m k Hk) as [v Hv].
  destruct (names k v Hk Hv) as [Hc [c [E [Hcc Hd]]]]. subst v.
  now exists c.
Qed.

Lemma tokenOfKey_clean (k x : string) :
  In k (map_keys m) -> clean x = true -> clean (tokenOfKey m x k) = true.
Proof.
  intros Hk Hx. destruct (key_name k Hk) as [c [Hg [_ [Hc _]]]].
  rewrite (tokenOfKey_step m k c x Hg). now apply token_step_clean.
Qed.

Lemma substituteKey_join (k u0 : string) (l : list Chunk) :
  In k (map_keys m) -> clean u0 = true -> clean_chunks l ->
  substituteKey m (join u0 l) k = join u0 (map_tokens (fun x => tokenOfKey m x k) l).
Proof.
  intros Hk H0 Hl. destruct (key_name k Hk) as [c [Hg [Hkc [Hc Hd]]]].
  unfold substituteKey. rewrite Hg.
  change (truthy (Some (wrap c))) with true. cbn iota.
  rewrite (replace_gi_join k c Hkc Hd u0 l H0 Hl). f_equal.
  apply map_tokens_ext. intros x. symmetry. now apply tokenOfKey_step.
Qed.

Lemma substituteKeys_join (ks : list string) (u0 : string) (l : list Chunk) :
  (forall k, In k ks -> In k (map_keys m)) -> clean u0 = true -> clean_chunks l ->
  fold_left (substituteKey m) ks (join u0 l) =
  join u0 (map_tokens (fun x => fold_left (tokenOfKey m) ks x) l).
Proof.
  revert l. induction ks as [|k ks IH]; intros l Hks H0 Hl; cbn [fold_left].
  - now rewrite map_tokens_id.
  - rewrite substituteKey_join; [|apply Hks; now left|exact H0|exact Hl].
    rewrite IH.
    + now rewrite map_tokens_compose.
    + intros k' Hk'. apply Hks. now right.
    + exact H0.
    + apply map_tokens_clean; [|exact Hl].
      intros x Hx. apply tokenOfKey_clean; [apply Hks; now left|exact Hx].
Qed.

Lemma sortedKeys_In (k : string) : In k (sortedKeysOf m) -> In k (map_keys m).
Proof. unfold sortedKeysOf. apply js_sort_In. Qed.

(** The pass rewrites the tokens of a formula and nothing else. *)
Lemma rewrittenFormula_tokens (s : string) :
  rewrittenFormula m s =
  join (fst (split_brackets s)) (map_tokens (rewrittenToken m) (snd (split_brackets s))).
Proof.
  unfold rewrittenFormula. rewrite <- (join_split s) at 1.
  destruct (split_clean s) as [H0 Hl].
  now rewrite (substituteKeys_join _ _ _ sortedKeys_In H0 Hl).
Qed.


(** *** The pass on one token *)





End Pass.

(* ================================================================== *)
(** ** Rewriting twice                                                 *)
(* ================================================================== *)


(** From [map_get k m = Some (wrap c)] on a given map, the name [c]. *)
Ltac name_of_key H :=
  match type of H with
  | map_get ?k ?m = Some (wrap ?c) =>
      let v := eval vm_compute in (map_get k m) in
      change (map_get k m) with v in H;
      apply (f_equal (option_map unwrap)) in H;
      cbn [option_map] in H;
      rewrite unwrap_wrap in H;
      injection H as H;
      vm_compute in H
  end.

Lemma scenarioA_map_well_named : well_named scenarioA_map.
Proof.
  intros k v Hk Hv. cbn in Hk.
  destruct Hk as [<-|[<-|[<-|[]]]]; vm_compute in Hv; injection Hv as <-;
    (split; [reflexivity|]);
    [exists "Sales"|exists "Cost"|exists "Profit Ratio"]; repeat split.
Defined.




(* ================================================================== *)
(** ** The longest identifier first                                    *)
(* ================================================================== *)











(* ================================================================== *)
(** ** What the conditions on the names are for                        *)
(* ================================================================== *)

(** The map the engine builds has identifiers without brackets and friendly
    names in brackets, whatever the records are. *)
Lemma filter_string_clean (s : string) :
  clean (filter_string (fun c => negb (is_bracket c)) s) = true.
Proof.
  induction s as [|a s IH]; [reflexivity|].
  cbn [filter_string]. destruct (is_bracket a) eqn:E; cbn [negb]; [exact IH|].
  apply clean_cons. now split.
Qed.

Lemma map_set_In (k v k0 v0 : string) (m : JsMap) :
  In (k, v) (map_set k0 v0 m) -> (k, v) = (k0, v0) \/ In (k, v) m.
Proof.
  induction m as [|[k' v'] m IH]; cbn [map_set]; intros H.
  - destruct H as [H|[]]. now left.
  - destruct (k' =? k0)%string.
    + destruct H as [H|H]; [now left|right; now right].
    + destruct H as [H|H]; [right; now left|].
      destruct (IH H) as [G|G]; [now left|right; now right].
Qed.

Lemma buildCalcMap_shape (allFields : list FieldRecord) (k v : string) :
  In (k, v) (buildCalcMap allFields) -> clean k = true /\ exists c, v = wrap c.
Proof.
  unfold buildCalcMap.
  assert (G : forall fs m,
             (forall k v, In (k, v) m -> clean k = true /\ exists c, v = wrap c) ->
             forall k v, In (k, v) (fold_left calcMapStep fs m) ->
                         clean k = true /\ exists c, v = wrap c).
  { induction fs as [|f fs IH]; intros m Hm k' v' H; [now apply Hm|].
    cbn [fold_left] in H. apply (IH (calcMapStep m f)); [|exact H].
    intros k1 v1 H1.
    assert (S : In (k1, v1) (map_set (cleanIdOf f) (friendlyNameOf f) m) ->
                clean k1 = true /\ exists c, v1 = wrap c).
    { intros H2. apply map_set_In in H2. destruct H2 as [E|H2]; [|now apply Hm].
      injection E as -> ->. split; [apply filter_string_clean|].
      unfold friendlyNameOf. now eexists. }
    unfold calcMapStep in H1. destruct (category f); try now apply S.
    destruct (negb (map_has (cleanIdOf f) m)); [now apply S|now apply Hm]. }
  apply G. intros k' v' [].
Qed.

(** Without them a second pass can differ although every friendly name is
    settled: a friendly name with a bracket inside brings a new token, and
    the pattern [$&] brings the matched token back. *)
Lemma rewrite_twice_needs_plain_names :
  stable bracketNameMap /\
  rewriteFormula bracketNameMap "[a]" = Ok "[x][b]" /\
  rewriteFormula bracketNameMap "[x][b]" = Ok "[x][y]" /\
  stable dollarNameMap /\
  rewriteFormula dollarNameMap "[a]" = Ok "[[a]]" /\
  rewriteFormula dollarNameMap "[[a]]" = Ok "[[[a]]]".
Proof.
  split; [|split; [vm_compute; reflexivity|split; [vm_compute; reflexivity|
           split; [|split; vm_compute; reflexivity]]]].
  - intros k c Hk Hv k' Hk' He. cbn in Hk, Hk'.
    destruct Hk as [<-|[<-|[]]]; name_of_key Hv; subst c;
      destruct Hk' as [<-|[<-|[]]]; vm_compute in He;
      first [discriminate He|reflexivity].
  - intros k c Hk Hv k' Hk' He. cbn in Hk, Hk'.
    destruct Hk as [<-|[]]; name_of_key Hv; subst c.
    destruct Hk' as [<-|[]]. vm_compute in He. discriminate He.
Qed.

(* ================================================================== *)
(** ** Further properties of the collection                            *)
(* ================================================================== *)

(** An invariant of the state of the loops holds of what they return when
    the first state has it and both pushes keep it. *)
Lemma collectFields_invariant (I : CollectState -> Prop) :
  I ([], 0) ->
  (forall fs n dsName dsCaption col parent,
      I (fs, n) ->
      I (fs ++ [columnRecord dsName dsCaption (toLowerCase dsName =? "parameters")
                             n col parent], S n)) ->
  (forall fs n dsName dsCaption param,
      I (fs, n) -> toLowerCase dsName = "parameters" ->
      existsb (takenInParameters (wrap (tmpl (getAttribute param "name")))) fs = false ->
      I (fs ++ [paramRecord dsName dsCaption n param], S n)) ->
  forall xmlDoc, I (collectFields xmlDoc).
Proof.
  intros H0 Hcol Hpar xmlDoc. unfold collectFields.
  assert (Gc : forall dsName dsCaption cols st, I st ->
             I (fold_left (collectColumn dsName dsCaption (toLowerCase dsName =? "parameters"))
                          cols st)).
  { intros dsName dsCaption cols. induction cols as [|cp cols IH]; intros [fs n] H;
      cbn [fold_left]; [exact H|]. apply IH. cbn [collectColumn]. now apply Hcol. }
  assert (Gp : forall dsName dsCaption ps st, toLowerCase dsName = "parameters" -> I st ->
             I (fold_left (collectParam dsName dsCaption) ps st)).
  { intros dsName dsCaption ps. induction ps as [|p ps IH]; intros [fs n] Hd H;
      cbn [fold_left]; [exact H|]. apply IH; [exact Hd|]. unfold collectParam.
      fold (takenInParameters (wrap (tmpl (getAttribute p "name")))).
      destruct (existsb _ fs) eqn:E; [exact H|]. now apply Hpar. }
  assert (Gd : forall dss st, I st -> I (fold_left collectDatasource dss st)).
  { induction dss as [|ds dss IH]; intros st H; cbn [fold_left]; [exact H|].
    apply IH. unfold collectDatasource.
    set (dsName := or_str (getAttribute ds "name") "Unknown Datasource").
    destruct (toLowerCase dsName =? "parameters") eqn:E.
    - apply Gp; [now apply String.eqb_eq|]. rewrite <- E. now apply Gc.
    - rewrite <- E. now apply Gc. }
  now apply Gd.
Qed.

Lemma rawFields_all (P : FieldRecord -> Prop) :
  (forall dsName dsCaption n col parent,
      P (columnRecord dsName dsCaption (toLowerCase dsName =? "parameters") n col parent)) ->
  (forall dsName dsCaption n param,
      toLowerCase dsName = "parameters" -> P (paramRecord dsName dsCaption n param)) ->
  forall xmlDoc, Forall P (rawFields xmlDoc).
Proof.
  intros Hc Hp xmlDoc. unfold rawFields.
  apply (collectFields_invariant (fun st => Forall P (fst st))); cbn [fst].
  - constructor.
  - intros. apply Forall_app. split; [assumption|]. constructor; [apply Hc|constructor].
  - intros. apply Forall_app. split; [assumption|]. constructor; [now apply Hp|constructor].
Qed.

Lemma collectColumns_length (dsName dsCaption : string) (isP : bool)
    (cols : list (node * node)) (st : CollectState) :
  List.length (fst (fold_left (collectColumn dsName dsCaption isP) cols st)) =
  List.length (fst st) + List.length cols.
Proof.
  revert st. induction cols as [|cp cols IH]; intros [fs n]; cbn [fold_left List.length].
  - cbn. lia.
  - rewrite IH. cbn [collectColumn fst]. rewrite length_app. cbn. lia.
Qed.

Lemma collectParams_length (dsName dsCaption : string) (ps : list node) (st : CollectState) :
  List.length (fst st) <= List.length (fst (fold_left (collectParam dsName dsCaption) ps st))
  <= List.length (fst st) + List.length ps.
Proof.
  revert st. induction ps as [|p ps IH]; intros [fs n]; cbn [fold_left List.length].
  - cbn. lia.
  - unfold collectParam at 2 4. destruct (existsb _ fs).
    + specialize (IH (fs, n)). cbn [fst] in *. lia.
    + specialize (IH (fs ++ [paramRecord dsName dsCaption n p], S n)).
      cbn [fst] in *. rewrite length_app in IH. cbn in IH. lia.
Qed.

(** X1. Every [<column>] met by the loops gives one raw record, and a
    [<param>] gives at most one, and none outside a datasource named
    "parameters" up to case: the number of raw records lies between the
    number of columns and the number of columns and parameters. *)
Theorem X1_raw_record_count (xmlDoc : node) :
  columnCount xmlDoc <= List.length (rawFields xmlDoc)
  <= columnCount xmlDoc + paramCount xmlDoc.
Proof.
  unfold rawFields, collectFields, columnCount, paramCount, list_sum.
  assert (G : forall dss st,
             List.length (fst st) +
             fold_right Nat.add 0
               (map (fun ds => List.length (getElementsByTagNameP ds "column")) dss)
             <= List.length (fst (fold_left collectDatasource dss st))
             <= List.length (fst st) +
                fold_right Nat.add 0
                  (map (fun ds => List.length (getElementsByTagNameP ds "column")) dss) +
                fold_right Nat.add 0
                         (map (fun ds => if isParametersDs ds
                                         then List.length (getElementsByTagName ds "param")
                                         else 0) dss)).
  { induction dss as [|ds dss IH]; intros st; cbn [fold_left map fold_right].
    - lia.
    - specialize (IH (collectDatasource st ds)).
      assert (S : List.length (fst st) + List.length (getElementsByTagNameP ds "column")
                  <= List.length (fst (collectDatasource st ds))
                  <= List.length (fst st) + List.length (getElementsByTagNameP ds "column") +
                     (if isParametersDs ds
                      then List.length (getElementsByTagName ds "param") else 0)).
      { unfold collectDatasource, isParametersDs.
        set (dsName := or_str (getAttribute ds "name") "Unknown Datasource").
        set (dsCaption := or_str (getAttribute ds "caption") dsName).
        pose proof (collectColumns_length dsName dsCaption
                      (toLowerCase dsName =? "parameters")
                      (getElementsByTagNameP ds "column") st) as Hc.
        destruct (toLowerCase dsName =? "parameters").
        - pose proof (collectParams_length dsName dsCaption
                        (getElementsByTagName ds "param")
                        (fold_left (collectColumn dsName dsCaption true)
                                   (getElementsByTagNameP ds "column") st)) as Hp.
          lia.
        - lia. }
      lia. }
  specialize (G (docElementsByTagName xmlDoc "datasource") ([], 0)).
  cbn [fst List.length] in G. lia.
Qed.

(** X2. A record made from a [<param>] of the datasource named "Parameters"
    never repeats the id of an earlier record of that datasource: among the
    raw records of "Parameters" with one id, a record made from a parameter
    is the first. *)
Theorem X2_parameter_not_registered_twice (xmlDoc : node) (p q : FieldRecord) :
  In p (rawFields xmlDoc) -> In q (rawFields xmlDoc) ->
  madeFromParam p = true ->
  datasource_name p = Some "Parameters" ->
  datasource_name q = Some "Parameters" ->
  field_id p = field_id q ->
  counter p <= counter q.
Proof.
  unfold rawFields.
  set (I := fun st : CollectState =>
              map counter (fst st) = seq 0 (snd st) /\
              forall p q, In p (fst st) -> In q (fst st) ->
                madeFromParam p = true ->
                datasource_name p = Some "Parameters" ->
                datasource_name q = Some "Parameters" ->
                field_id p = field_id q -> counter p <= counter q).
  assert (H : I (collectFields xmlDoc)).
  { apply collectFields_invariant; unfold I; cbn [fst snd].
    - split; [reflexivity|intros ? ? []].
    - intros fs n dsName dsCaption col parent [Hc Hi]. split.
      + rewrite map_app, Hc, seq_S. reflexivity.
      + intros p' q' Hp Hq Hm Hdp Hdq Hid.
        assert (Hlt : forall r, In r fs -> counter r < n).
        { intros r Hr. apply (in_map counter) in Hr. rewrite Hc in Hr.
          apply in_seq in Hr. lia. }
        apply in_app_or in Hp. apply in_app_or in Hq.
        destruct Hp as [Hp|[Hp|[]]]; [|subst p'; discriminate Hm].
        destruct Hq as [Hq|[Hq|[]]]; [now apply Hi|].
        subst q'. cbn [counter columnRecord]. specialize (Hlt p' Hp). lia.
    - intros fs n dsName dsCaption param [Hc Hi] Hd Hg. split.
      + rewrite map_app, Hc, seq_S. reflexivity.
      + intros p' q' Hp Hq Hm Hdp Hdq Hid.
        assert (Hlt : forall r, In r fs -> counter r < n).
        { intros r Hr. apply (in_map counter) in Hr. rewrite Hc in Hr.
          apply in_seq in Hr. lia. }
        apply in_app_or in Hp. apply in_app_or in Hq.
        destruct Hp as [Hp|[Hp|[]]]; destruct Hq as [Hq|[Hq|[]]].
        * now apply Hi.
        * subst q'. cbn [counter paramRecord]. specialize (Hlt p' Hp). lia.
        * exfalso. subst p'. cbn [field_id paramRecord] in Hid.
          assert (C : existsb (takenInParameters (wrap (tmpl (getAttribute param "name")))) fs
                      = true).
          { apply existsb_exists. exists q'. split; [exact Hq|].
            unfold takenInParameters. rewrite Hdq, <- Hid, String.eqb_refl. reflexivity. }
          congruence.
        * subst p' q'. lia. }
  intros Hp Hq. now apply (proj2 H).
Qed.

(** X2 at two datasources named "Parameters". *)
Lemma X2_parameter_witness :
  let p := paramRecord "Parameters" "Parameters" 0 thresholdParam in
  let q := columnRecord "Parameters" "Parameters" true 1 thresholdColumn
             (Elem "datasource" [("name", "Parameters")] [thresholdColumn]) in
  In p (rawFields parametersTwice) /\ In q (rawFields parametersTwice) /\
  madeFromParam p = true /\
  datasource_name p = Some "Parameters" /\
  datasource_name q = Some "Parameters" /\
  field_id p = field_id q /\
  counter p <= counter q.
Proof.
  intros p q.
  assert (Hp : In p (rawFields parametersTwice)) by (vm_compute; left; reflexivity).
  assert (Hq : In q (rawFields parametersTwice)) by (vm_compute; right; left; reflexivity).
  repeat (split; [first [assumption|reflexivity]|]).
  exact (X2_parameter_not_registered_twice parametersTwice p q Hp Hq
           eq_refl eq_refl eq_refl eq_refl).
Defined.

(** What the category of a record says about its formula. *)
Lemma category_formula_raw (xmlDoc : node) :
  Forall (fun f =>
            (category f = Default_Field ->
               field_calculation f = None /\ field_calculation_bk f = None) /\
            (category f = Calculated_Field ->
               field_calculation f <> None /\ field_calculation_bk f <> None /\
               exists d, datasource_name f = Some d /\ toLowerCase d <> "parameters"))
         (rawFields xmlDoc).
Proof.
  apply rawFields_all.
  - intros dsName dsCaption n col parent.
    cbn [category field_calculation field_calculation_bk datasource_name columnRecord].
    destruct (String.eqb_spec (toLowerCase dsName) "parameters") as [E|E];
      cbn [orb]; [split; discriminate|].
    destruct (parentIsParameters parent); [split; discriminate|].
    destruct (calculationFormulaOf col) as [f0|]; split; intros H;
      try discriminate H; [|split; reflexivity].
    split; [discriminate|]. split; [discriminate|]. now exists dsName.
  - intros dsName dsCaption n param _. cbn. split; discriminate.
Qed.

Lemma rewrittenField_none (m : JsMap) (f : FieldRecord) :
  field_calculation (rewrittenField m f) = None <-> field_calculation f = None.
Proof.
  unfold rewrittenField. destruct (field_calculation f) as [f0|] eqn:E;
    [|now rewrite E].
  destruct (truthy (Some f0)); [cbn; split; discriminate|now rewrite E].
Qed.

Lemma deduplicated_from_raw (numberSign : string -> Z) (xmlDoc : node) (f : FieldRecord) :
  In f (deduplicatedFields numberSign xmlDoc) ->
  exists r, In r (rawFields xmlDoc) /\
            f = rewrittenField (buildCalcMap (rawFields xmlDoc)) r.
Proof.
  intros Hf. apply deduplicatedFields_In in Hf. apply dedupe_In in Hf.
  destruct Hf as [Hf _]. apply js_sort_In in Hf.
  unfold rewrittenFields in Hf. apply in_map_iff in Hf.
  destruct Hf as [r [<- Hr]]. now exists r.
Qed.

Lemma category_formula_deduplicated (numberSign : string -> Z) (xmlDoc : node)
    (f : FieldRecord) :
  In f (deduplicatedFields numberSign xmlDoc) ->
  (category f = Default_Field ->
     field_calculation f = None /\ field_calculation_bk f = None) /\
  (category f = Calculated_Field ->
     field_calculation f <> None /\ field_calculation_bk f <> None /\
     exists d, datasource_name f = Some d /\ toLowerCase d <> "parameters").
Proof.
  intros Hf. destruct (deduplicated_from_raw _ _ _ Hf) as [r [Hr ->]].
  pose proof (category_formula_raw xmlDoc) as Hraw. rewrite Forall_forall in Hraw.
  destruct (Hraw r Hr) as [H1 H2].
  pose proof (rewrittenField_none (buildCalcMap (rawFields xmlDoc)) r) as Hn.
  rewrite rewrittenField_frame.
  cbn [category field_calculation field_calculation_bk datasource_name
       set_field_calculation].
  split; intros Hc.
  - destruct (H1 Hc) as [Ha Hb]. split; [now apply Hn|exact Hb].
  - destruct (H2 Hc) as [Ha [Hb Hd]].
    split; [intros C; apply Ha; now apply Hn|now split].
Qed.

(** X3. In what the engine returns, a Default_Field has no formula (neither
    the rewritten one nor the original one), and a Calculated_Field has
    both and belongs to a datasource whose name is not "parameters" in any
    case. *)
Theorem X3_category_and_formula (numberSign : string -> Z) (xmlDoc : node) :
  exists out,
    extractDataFromTwb numberSign xmlDoc = Ok out /\
    forall f, In f (fields out) ->
      (category f = Default_Field ->
         field_calculation f = None /\ field_calculation_bk f = None) /\
      (category f = Calculated_Field ->
         field_calculation f <> None /\ field_calculation_bk f <> None /\
         exists d, datasource_name f = Some d /\ toLowerCase d <> "parameters").
Proof.
  exists (assemble (deduplicatedFields numberSign xmlDoc) (rawCounter xmlDoc)).
  split; [apply extractDataFromTwb_ok|].
  intros f Hf. rewrite assemble_fields in Hf. apply in_app_or in Hf.
  destruct Hf as [Hf|Hf]; [now apply (category_formula_deduplicated numberSign xmlDoc)|].
  apply placeholders_shape in Hf. destruct Hf as [-> _]. cbn.
  split; [now split|discriminate].
Qed.

(* ================================================================== *)
(** ** Further properties of the identifier map                        *)
(* ================================================================== *)

Lemma map_get_set_same (k v : string) (m : JsMap) : map_get k (map_set k v m) = Some v.
Proof.
  unfold map_get. induction m as [|[k' v'] m IH]; cbn [map_set assoc].
  - now rewrite String.eqb_refl.
  - destruct (String.eqb_spec k' k) as [E|E]; cbn [assoc].
    + now rewrite String.eqb_refl.
    + destruct (String.eqb_spec k' k); [contradiction|exact IH].
Qed.

Lemma map_get_set_other (k k0 v : string) (m : JsMap) :
  k0 <> k -> map_get k (map_set k0 v m) = map_get k m.
Proof.
  intros Hk. unfold map_get. induction m as [|[k' v'] m IH]; cbn [map_set assoc].
  - destruct (String.eqb_spec k0 k); [contradiction|reflexivity].
  - destruct (String.eqb_spec k' k0) as [E|E]; cbn [assoc].
    + subst k'. destruct (String.eqb_spec k0 k); [contradiction|reflexivity].
    + destruct (String.eqb_spec k' k); [reflexivity|exact IH].
Qed.

Lemma find_snoc {A : Type} (p : A -> bool) (l : list A) (x : A) :
  find p (l ++ [x]) =
  match find p l with
  | Some y => Some y
  | None => if p x then Some x else None
  end.
Proof.
  induction l as [|a l IH]; cbn [app find]; [reflexivity|].
  destruct (p a); [reflexivity|exact IH].
Qed.

Lemma buildCalcMap_snoc (fs : list FieldRecord) (f : FieldRecord) :
  buildCalcMap (fs ++ [f]) = calcMapStep (buildCalcMap fs) f.
Proof. unfold buildCalcMap. now rewrite fold_left_app. Qed.

(** X4. The friendly name the map gives to an identifier is the one of the
    last calculation or parameter with that identifier and, when there is
    none, of the first record with it; an identifier of no record is not
    mapped. *)
Theorem X4_map_lookup (allFields : list FieldRecord) (k : string) :
  map_get k (buildCalcMap allFields) = nameClaimed allFields k.
Proof.
  induction allFields as [|f fs IH] using rev_ind; [reflexivity|].
  rewrite buildCalcMap_snoc. unfold nameClaimed in *.
  rewrite rev_app_distr. cbn [rev app find]. rewrite find_snoc.
  set (m := buildCalcMap fs) in *.
  set (calcs := find (fun f0 => (cleanIdOf f0 =? k) && isCalcOrParam f0) (rev fs)) in *.
  set (first := find (fun f0 => cleanIdOf f0 =? k) fs) in *.
  unfold calcMapStep, map_has, isCalcOrParam.
  destruct (String.eqb_spec (cleanIdOf f) k) as [E|E]; cbn [andb].
  - rewrite E.
    destruct (category f); try (now rewrite map_get_set_same).
    destruct (map_get k m) as [v|] eqn:Eg; cbn [negb].
    + rewrite Eg. destruct calcs; [exact IH|]. destruct first; [exact IH|discriminate IH].
    + rewrite map_get_set_same.
      destruct calcs; [discriminate IH|]. destruct first; [discriminate IH|reflexivity].
  - assert (S : map_get k (map_set (cleanIdOf f) (friendlyNameOf f) m) =
                match calcs with
                | Some f0 => Some (friendlyNameOf f0)
                | None => option_map friendlyNameOf
                            match first with
                            | Some y => Some y
                            | None => None
                            end
                end).
    { rewrite (map_get_set_other k _ _ _ E), IH.
      destruct calcs; [reflexivity|]. now destruct first. }
    destruct (category f); try exact S.
    destruct (negb _); [exact S|].
    rewrite IH. destruct calcs; [reflexivity|]. now destruct first.
Qed.

Lemma map_set_keys (k v : string) (m : JsMap) :
  map_keys (map_set k v m) =
  if existsb (String.eqb k) (map_keys m) then map_keys m else map_keys m ++ [k].
Proof.
  unfold map_keys. induction m as [|[k' v'] m IH]; cbn [map_set map existsb app fst];
    [reflexivity|].
  rewrite (String.eqb_sym k k').
  destruct (String.eqb_spec k' k) as [E|E]; cbn [map orb fst].
  - now subst.
  - rewrite IH. now destruct (existsb _ (map fst m)).
Qed.

Lemma map_has_keys (k : string) (m : JsMap) :
  map_has k m = existsb (String.eqb k) (map_keys m).
Proof.
  unfold map_has, map_get, map_keys. induction m as [|[k' v'] m IH]; [reflexivity|].
  cbn [assoc map existsb fst]. rewrite (String.eqb_sym k k').
  destruct (k' =? k)%string; [reflexivity|exact IH].
Qed.

(** X5. The keys of the map are the identifiers of the records without
    their brackets, each once: no key has a bracket, no key occurs twice,
    a string is a key exactly when it is the identifier of a record, and
    every friendly name is a text in brackets. *)
Theorem X5_map_keys (allFields : list FieldRecord) :
  NoDup (map_keys (buildCalcMap allFields)) /\
  (forall k, In k (map_keys (buildCalcMap allFields)) <->
             exists f, In f allFields /\ cleanIdOf f = k) /\
  (forall k v, In (k, v) (buildCalcMap allFields) ->
               clean k = true /\ exists c, v = wrap c).
Proof.
  split; [|split; [|apply buildCalcMap_shape]].
  - induction allFields as [|f fs IH] using rev_ind; [constructor|].
    rewrite buildCalcMap_snoc.
    assert (S : NoDup (map_keys (map_set (cleanIdOf f) (friendlyNameOf f) (buildCalcMap fs)))).
    { rewrite map_set_keys.
      destruct (existsb _ (map_keys (buildCalcMap fs))) eqn:E; [exact IH|].
      apply NoDup_app; [exact IH|repeat constructor; intros []|].
      intros x Hx [<-|[]].
      assert (C : existsb (String.eqb (cleanIdOf f)) (map_keys (buildCalcMap fs)) = true).
      { apply existsb_exists. exists (cleanIdOf f). split; [exact Hx|apply String.eqb_refl]. }
      congruence. }
    unfold calcMapStep. destruct (category f); try exact S.
    destruct (negb _); [exact S|exact IH].
  - intros k. induction allFields as [|f fs IH] using rev_ind.
    + cbn. split; [intros []|intros [f [[] _]]].
    + rewrite buildCalcMap_snoc.
      assert (S : In k (map_keys (map_set (cleanIdOf f) (friendlyNameOf f) (buildCalcMap fs)))
                  <-> exists g, In g (fs ++ [f]) /\ cleanIdOf g = k).
      { rewrite map_set_keys. split.
        - intros H.
          assert (H' : In k (map_keys (buildCalcMap fs)) \/ k = cleanIdOf f).
          { destruct (existsb _ (map_keys (buildCalcMap fs))); [now left|].
            apply in_app_or in H. destruct H as [H|[H|[]]]; [now left|now right]. }
          destruct H' as [H'|H'].
          + apply IH in H'. destruct H' as [g [Hg E]]. exists g.
            split; [apply in_or_app; now left|exact E].
          + exists f. split; [apply in_or_app; right; now left|now symmetry].
        - intros [g [Hg E]]. apply in_app_or in Hg.
          destruct (existsb (String.eqb (cleanIdOf f)) (map_keys (buildCalcMap fs))) eqn:Ex.
          + destruct Hg as [Hg|[Hg|[]]]; [apply IH; now exists g|].
            subst g. apply existsb_exists in Ex. destruct Ex as [y [Hy Ey]].
            apply String.eqb_eq in Ey. now subst.
          + apply in_or_app. destruct Hg as [Hg|[Hg|[]]].
            * left. apply IH. now exists g.
            * right. left. now subst. }
      unfold calcMapStep. destruct (category f); try exact S.
      rewrite map_has_keys.
      destruct (existsb (String.eqb (cleanIdOf f)) (map_keys (buildCalcMap fs))) eqn:Ex;
        cbn [negb]; [|rewrite map_set_keys, Ex in S; rewrite map_set_keys, Ex; exact S].
      rewrite map_set_keys, Ex in S. exact S.
Qed.

(* ================================================================== *)
(** ** Further properties of the rewriting                             *)
(* ================================================================== *)

(** X6. Escaping a string and reading the result as a pattern gives the
    string back, whatever characters it has; so the expression built for a
    key matches the key in brackets and nothing else, and its construction
    does not throw. *)
Theorem X6_escape_round_trip (s : string) :
  literal_of_pattern (escapeRegExp s) = Some s /\
  RegExp_gi ("\[" ++ escapeRegExp s ++ "\]") = Ok (wrap s).
Proof.
  split; [|apply RegExp_gi_escaped].
  rewrite <- (str_app_nil_r (escapeRegExp s)), literal_of_escaped.
  cbn. now rewrite str_app_nil_r.
Qed.

Lemma no_open_cons (a : ascii) (s : string) :
  no_open (String a s) = true <-> (a =? "[")%char = false /\ no_open s = true.
Proof.
  unfold no_open. cbn. rewrite andb_true_iff, negb_true_iff. tauto.
Qed.

Lemma replace_from_no_open (lit t b s : string) :
  no_open s = true -> replace_from (String "[" lit) t b 0 s = s.
Proof.
  revert b. induction s as [|c r IH]; intros b H; [reflexivity|].
  apply no_open_cons in H. destruct H as [Hc Hr].
  cbn [replace_from prefix_ci].
  assert (E : (canon "[" =? canon c)%char = false).
  { apply Ascii.eqb_neq. intros C. symmetry in C.
    apply (proj1 (canon_open c)) in C. apply Ascii.eqb_neq in Hc. contradiction. }
  rewrite E. cbn [andb]. now rewrite IH.
Qed.

(** X7. A formula without an opening bracket is left as it is by the
    rewriter, whatever the map. *)
Theorem X7_rewrite_without_bracket (m : JsMap) (formula : string) :
  no_open formula = true -> rewriteFormula m formula = Ok formula.
Proof.
  intros H. rewrite rewriteFormula_ok. f_equal. unfold rewrittenFormula.
  induction (sortedKeysOf m) as [|k ks IH]; [reflexivity|].
  cbn [fold_left].
  assert (E : substituteKey m formula k = formula).
  { unfold substituteKey. destruct (map_get k m) as [r|]; [|reflexivity].
    destruct (truthy (Some r)); [|reflexivity].
    unfold replace_gi, wrap. cbn [String.append]. now apply replace_from_no_open. }
  now rewrite E.
Qed.

(** X7 at a formula of numbers. *)
Lemma X7_rewrite_without_bracket_witness :
  no_open "1 + 2 * 3" = true /\
  rewriteFormula scenarioA_map "1 + 2 * 3" = Ok "1 + 2 * 3".
Proof.
  split; [reflexivity|].
  exact (X7_rewrite_without_bracket scenarioA_map "1 + 2 * 3" eq_refl).
Defined.

Lemma rewrittenToken_clean (m : JsMap) (x : string) :
  well_named m -> clean x = true -> clean (rewrittenToken m x) = true.
Proof.
  intros Hn. unfold rewrittenToken.
  assert (G : forall ks y, (forall k, In k ks -> In k (map_keys m)) ->
                clean y = true -> clean (fold_left (tokenOfKey m) ks y) = true).
  { induction ks as [|k ks IH]; intros y Hks Hy; [exact Hy|].
    cbn [fold_left]. apply IH; [intros k' Hk'; apply Hks; now right|].
    apply tokenOfKey_clean; [exact Hn|apply Hks; now left|exact Hy]. }
  apply G. apply sortedKeys_In.
Qed.

Lemma map_tokens_brackets (t : string -> string) (l : list Chunk) :
  map fst (map_tokens t l) = map fst l.
Proof.
  induction l as [|[b u] l IH]; [reflexivity|].
  cbn [map_tokens map fst]. now rewrite IH.
Qed.

(** X8. When the identifiers of the map have no brackets and its friendly
    names are one bracketed text without brackets and without [$], the
    rewriter changes nothing but the text of tokens: cut at its brackets,
    the result has the text before the first bracket and the brackets of
    the formula, and its chunks are those of the formula with the tokens
    rewritten. *)
Theorem X8_rewrite_changes_tokens_only (m : JsMap) (formula : string) :
  well_named m ->
  exists result,
    rewriteFormula m formula = Ok result /\
    split_brackets result =
      (fst (split_brackets formula),
       map_tokens (rewrittenToken m) (snd (split_brackets formula))) /\
    fst (split_brackets result) = fst (split_brackets formula) /\
    map fst (snd (split_brackets result)) = map fst (snd (split_brackets formula)).
Proof.
  intros Hn. exists (rewrittenFormula m formula).
  split; [apply rewriteFormula_ok|].
  destruct (split_clean formula) as [H0 Hl].
  assert (E : split_brackets (rewrittenFormula m formula) =
              (fst (split_brackets formula),
               map_tokens (rewrittenToken m) (snd (split_brackets formula)))).
  { rewrite (rewrittenFormula_tokens m Hn). apply split_join; [exact H0|].
    apply map_tokens_clean; [|exact Hl].
    intros x Hx. now apply rewrittenToken_clean. }
  split; [exact E|]. rewrite E. cbn [fst snd].
  split; [reflexivity|apply map_tokens_brackets].
Qed.

(** X8 at the map of Scenario A and a formula with a token in another
    case and a bracket that opens no token. *)
Lemma X8_rewrite_changes_tokens_only_witness :
  well_named scenarioA_map /\
  exists result,
    rewriteFormula scenarioA_map "[[sales]/[Cost]" = Ok result /\
    split_brackets result =
      (fst (split_brackets "[[sales]/[Cost]"),
       map_tokens (rewrittenToken scenarioA_map) (snd (split_brackets "[[sales]/[Cost]"))) /\
    fst (split_brackets result) = fst (split_brackets "[[sales]/[Cost]") /\
    map fst (snd (split_brackets result)) =
      map fst (snd (split_brackets "[[sales]/[Cost]")).
Proof.
  split; [exact scenarioA_map_well_named|].
  exact (X8_rewrite_changes_tokens_only scenarioA_map "[[sales]/[Cost]"
           scenarioA_map_well_named).
Defined.

(* ================================================================== *)
(** ** Further properties of the deduplication and the ordering        *)
(* ================================================================== *)

(** X9. A raw record of the datasource named "Parameters" is in the
    returned field list exactly when no earlier record of "Parameters" has
    its id; the records of the other datasources do not matter. *)
Theorem X9_parameters_record_survives (numberSign : string -> Z) (xmlDoc : node)
    (p : FieldRecord) :
  In p (rawFields xmlDoc) ->
  datasource_name p = Some "Parameters" ->
  exists out,
    extractDataFromTwb numberSign xmlDoc = Ok out /\
    (hasCounter (counter p) (fields out) <->
     forall q, In q (rawFields xmlDoc) -> datasource_name q = Some "Parameters" ->
               field_id q = field_id p -> counter p <= counter q).
Proof.
  intros Hp Hd.
  exists (assemble (deduplicatedFields numberSign xmlDoc) (rawCounter xmlDoc)).
  split; [apply extractDataFromTwb_ok|].
  rewrite (fields_hasCounter _ _ _ (raw_counter_lt xmlDoc p Hp)).
  rewrite (survives_iff numberSign xmlDoc p Hp).
  apply fromParametersDs_true in Hd.
  split; intros H q Hq.
  - intros Hqd Hid. apply fromParametersDs_true in Hqd.
    destruct (H q Hq Hid) as [E|[[_ E]|[_ E]]]; [subst; lia|congruence|lia].
  - intros Hid. destruct (fromParametersDs q) eqn:Eq.
    + pose proof (H q Hq (proj1 (fromParametersDs_true q) Eq) Hid) as Hle.
      destruct (Nat.eq_dec (counter p) (counter q)) as [E|E].
      * left. symmetry. now apply (counters_inj _ _ _ p q (rawFields_counters xmlDoc)).
      * right. right. split; [congruence|lia].
    + right. left. now split.
Qed.

(** X9 at Scenario B with the datasource "Parameters" last. *)
Lemma X9_parameters_record_witness :
  let p := paramRecord "Parameters" "Parameters" 1 thresholdParam in
  In p (rawFields scenarioB_reversed) /\
  datasource_name p = Some "Parameters" /\
  exists out,
    extractDataFromTwb (fun _ => 0%Z) scenarioB_reversed = Ok out /\
    (hasCounter (counter p) (fields out) <->
     forall q, In q (rawFields scenarioB_reversed) ->
               datasource_name q = Some "Parameters" ->
               field_id q = field_id p -> counter p <= counter q).
Proof.
  intros p.
  assert (Hp : In p (rawFields scenarioB_reversed))
    by (vm_compute; right; left; reflexivity).
  split; [exact Hp|]. split; [reflexivity|].
  exact (X9_parameters_record_survives (fun _ => 0%Z) scenarioB_reversed p Hp eq_refl).
Defined.

(** X10. The deduplication loses no id: a string is the id of a
    deduplicated field exactly when it is the id of a raw record, and every
    deduplicated field is a raw record with its formula rewritten. *)
Theorem X10_every_id_kept (numberSign : string -> Z) (xmlDoc : node) :
  (forall id, In id (map field_id (deduplicatedFields numberSign xmlDoc)) <->
              In id (map field_id (rawFields xmlDoc))) /\
  (forall f, In f (deduplicatedFields numberSign xmlDoc) ->
             exists r, In r (rawFields xmlDoc) /\
                       f = rewrittenField (buildCalcMap (rawFields xmlDoc)) r) /\
  List.length (deduplicatedFields numberSign xmlDoc) <= List.length (rawFields xmlDoc).
Proof.
  split; [|split; [apply deduplicated_from_raw|]].
  - intros id. split; intros H; apply in_map_iff in H; destruct H as [f [<- Hf]].
    + destruct (deduplicated_from_raw _ _ _ Hf) as [r [Hr ->]].
      rewrite rewrittenField_id. now apply in_map.
    + set (m := buildCalcMap (rawFields xmlDoc)).
      destruct (dedupe_covers [] (js_sort dedupCmp (rewrittenFields xmlDoc))
                              (rewrittenField m f)) as [g [_ [_ [_ [Hg [_ Hgd]]]]]].
      { apply js_sort_In. now apply in_map. }
      { intros []. }
      rewrite rewrittenField_id in Hg. rewrite <- Hg.
      apply in_map. now apply deduplicatedFields_In.
  - replace (List.length (rawFields xmlDoc))
      with (List.length (rewrittenFields xmlDoc))
      by (unfold rewrittenFields; apply length_map).
    apply NoDup_incl_length.
    + apply (NoDup_map_inv field_id). apply deduplicatedFields_NoDup.
    + intros f Hf. apply deduplicatedFields_In in Hf. apply dedupe_In in Hf.
      destruct Hf as [Hf _]. now apply js_sort_In in Hf.
Qed.



Lemma placeholders_default (rels : list DependencyEdge) (names : list (option string))
    (c : nat) (p : FieldRecord) :
  In p (placeholdersFor names c rels) ->
  category p = Default_Field /\ field_calculation p = None.
Proof.
  intros H. apply placeholders_shape in H. destruct H as [-> _]. now split.
Qed.


(* ================================================================== *)
(** ** Further properties of the graph and of the returned object      *)
(* ================================================================== *)

Lemma placeholders_filter_nil (rels : list DependencyEdge) (names : list (option string))
    (c : nat) :
  filter isCalcOrParam (placeholdersFor names c rels) = [].
Proof.
  assert (G : forall l, (forall p, In p l -> category p = Default_Field) ->
                        filter isCalcOrParam l = []).
  { induction l as [|p l IH]; intros H; [reflexivity|].
    cbn [filter]. unfold isCalcOrParam at 1. rewrite (H p (or_introl eq_refl)).
    apply IH. intros q Hq. apply H. now right. }
  apply G. intros p Hp. now apply (placeholders_default _ _ _ _ Hp).
Qed.

Lemma placeholders_edges_nil (rels : list DependencyEdge) (names : list (option string))
    (c : nat) :
  extractDependencies (placeholdersFor names c rels) = [].
Proof.
  assert (G : forall l, (forall p, In p l -> field_calculation p = None) ->
                        extractDependencies l = []).
  { unfold extractDependencies. induction l as [|p l IH]; intros H; [reflexivity|].
    cbn [flat_map]. unfold edgesOfField at 1. rewrite (H p (or_introl eq_refl)).
    apply IH. intros q Hq. apply H. now right. }
  apply G. intros p Hp. now apply (placeholders_default _ _ _ _ Hp).
Qed.

Lemma placeholders_none (rels : list DependencyEdge) (names : list (option string))
    (c : nat) :
  (forall e, In e rels -> In (from e) names) -> placeholdersFor names c rels = [].
Proof.
  induction rels as [|e rels IH]; intros H; [reflexivity|].
  cbn [placeholdersFor].
  rewrite (proj2 (known_name_In (from e) names) (H e (or_introl eq_refl))).
  apply IH. intros e' He'. apply H. now right.
Qed.

Lemma rescan_fields (u : list FieldRecord) (c : nat) :
  extractDependencies (fields (assemble u c)) = extractDependencies u.
Proof.
  rewrite assemble_fields. unfold extractDependencies at 1. rewrite flat_map_app.
  fold (extractDependencies u).
  fold (extractDependencies (placeholdersFor (map field_caption u) c (extractDependencies u))).
  now rewrite placeholders_edges_nil, app_nil_r.
Qed.

Lemma refilter_fields (u : list FieldRecord) (c : nat) :
  filter isCalcOrParam (fields (assemble u c)) = filter isCalcOrParam u.
Proof.
  rewrite assemble_fields, filter_app, placeholders_filter_nil. apply app_nil_r.
Qed.

(** X12. The list [calcs] is the returned field list without its
    Default_Field records, in the same order; no placeholder is in it. *)
Theorem X12_calcs_are_the_filtered_fields (numberSign : string -> Z) (xmlDoc : node) :
  exists out,
    extractDataFromTwb numberSign xmlDoc = Ok out /\
    calcs out = filter isCalcOrParam (fields out) /\
    (forall f, In f (calcs out) <-> In f (fields out) /\ category f <> Default_Field).
Proof.
  exists (assemble (deduplicatedFields numberSign xmlDoc) (rawCounter xmlDoc)).
  split; [apply extractDataFromTwb_ok|].
  assert (E : calcs (assemble (deduplicatedFields numberSign xmlDoc) (rawCounter xmlDoc)) =
              filter isCalcOrParam
                (fields (assemble (deduplicatedFields numberSign xmlDoc) (rawCounter xmlDoc))))
    by now rewrite assemble_calcs, refilter_fields.
  split; [exact E|]. intros f. rewrite E, filter_In. unfold isCalcOrParam.
  destruct (category f); split; intros [H1 H2]; split;
    solve [assumption|discriminate|reflexivity|contradiction].
Qed.

Lemma match_body_shape (s body : string) :
  match_body s = Some body -> no_close body = true.
Proof.
  revert body. induction s as [|c r IH]; intros body H; [discriminate H|].
  cbn [match_body] in H. destruct (c =? "]")%char eqn:E.
  - now injection H as <-.
  - destruct (match_body r) as [b|]; [|discriminate H].
    injection H as <-. unfold no_close. cbn. rewrite E. cbn. now apply IH.
Qed.

Lemma match_tokens_shape (s : string) (n : nat) (t : string) :
  In t (match_tokens n s) -> t <> EmptyString /\ no_close t = true.
Proof.
  revert n. induction s as [|c r IH]; intros n H; [contradiction|].
  cbn [match_tokens] in H. destruct n as [|n]; [|now apply (IH n)].
  destruct (c =? "[")%char; [|now apply (IH 0)].
  destruct (match_body r) as [[|a b]|] eqn:E; try (now apply (IH 0)).
  destruct H as [<-|H]; [|now apply (IH _ H)].
  split; [discriminate|now apply (match_body_shape r)].
Qed.

(** X13. No returned edge leads from a caption to the same caption, and the
    source of every edge is a text that is not empty and has no closing
    bracket. *)
Theorem X13_edges_have_no_self_reference (numberSign : string -> Z) (xmlDoc : node) :
  exists out,
    extractDataFromTwb numberSign xmlDoc = Ok out /\
    forall e, In e (relationships out) ->
      from e <> to e /\
      exists dep, from e = Some dep /\ dep <> EmptyString /\ no_close dep = true.
Proof.
  exists (assemble (deduplicatedFields numberSign xmlDoc) (rawCounter xmlDoc)).
  split; [apply extractDataFromTwb_ok|].
  intros e He. rewrite assemble_relationships in He.
  unfold extractDependencies in He. apply in_flat_map in He.
  destruct He as [f [_ He]]. unfold edgesOfField in He.
  destruct (field_calculation f) as [formula|]; [|contradiction].
  destruct (truthy (Some formula)); [|contradiction].
  apply in_map_iff in He. destruct He as [dep [<- Hdep]].
  apply filter_In in Hdep. destruct Hdep as [Hin Hne]. cbn [from to]. split.
  - intros C. apply opt_eqb_eq in C. rewrite C in Hne. discriminate Hne.
  - exists dep. split; [reflexivity|]. now apply (match_tokens_shape formula 0).
Qed.


Lemma Output_eq (a b : Output) :
  fields a = fields b -> calcs a = calcs b -> relationships a = relationships b -> a = b.
Proof. destruct a, b; cbn; intros -> -> ->; reflexivity. Qed.

(** X15. Scanning the returned fields again with [extractDependencies]
    gives the returned edges, and doing steps 5 to 7 again on the returned
    fields, with any counter, gives the returned object: nothing is left to
    close. *)
Theorem X15_returned_object_is_closed (numberSign : string -> Z) (xmlDoc : node) :
  exists out,
    extractDataFromTwb numberSign xmlDoc = Ok out /\
    extractDependencies (fields out) = relationships out /\
    forall counter, assemble (fields out) counter = out.
Proof.
  set (u := deduplicatedFields numberSign xmlDoc).
  set (c := rawCounter xmlDoc).
  exists (assemble u c). split; [apply extractDataFromTwb_ok|].
  assert (E : extractDependencies (fields (assemble u c)) = relationships (assemble u c))
    by now rewrite rescan_fields, assemble_relationships.
  split; [exact E|]. intros c'. apply Output_eq.
  - rewrite (assemble_fields (fields (assemble u c)) c').
    rewrite placeholders_none; [apply app_nil_r|].
    intros e He. rewrite rescan_fields in He. rewrite assemble_fields.
    rewrite map_app. apply in_or_app.
    apply (placeholders_close _ (map field_caption u) c e He).
  - now rewrite assemble_calcs, refilter_fields, assemble_calcs.
  - now rewrite assemble_relationships.
Qed.

(* ================================================================== *)
(** ** Further properties of the containment scan                      *)
(* ================================================================== *)

Lemma containmentStep_fold (originalFormula : string) (targetField : FieldRecord)
    (fields : list FieldRecord) (acc : list DependencyEdge) :
  fold_left (containmentStep originalFormula targetField) fields (Ok acc) =
  Ok (acc ++ map (fun s => {| from := field_caption s; to := field_caption targetField |})
                 (containmentSources fields targetField originalFormula)).
Proof.
  unfold containmentSources. revert acc.
  induction fields as [|s fields IH]; intros acc; cbn [fold_left filter map].
  - now rewrite app_nil_r.
  - unfold containmentStep at 2. cbn [bind].
    destruct (field_id s =? field_id targetField)%string; cbn [negb andb]; [apply IH|].
    rewrite RegExp_gi_escaped. cbn [bind].
    destruct (test_gi (wrap (coreIdentifierOf s)) originalFormula); [|apply IH].
    rewrite IH. cbn [map]. now rewrite <- app_assoc.
Qed.

Lemma containmentTarget_fold (fields calcs : list FieldRecord) (acc : list DependencyEdge) :
  fold_left (containmentTarget fields) calcs (Ok acc) =
  Ok (acc ++ containmentEdges fields calcs).
Proof.
  unfold containmentEdges. revert acc.
  induction calcs as [|t calcs IH]; intros acc; cbn [fold_left flat_map].
  - now rewrite app_nil_r.
  - unfold containmentTarget at 2. cbn [bind].
    destruct (field_calculation_bk t) as [f0|]; [|apply IH].
    destruct (truthy (Some f0)); [|apply IH].
    rewrite containmentStep_fold, IH. now rewrite <- app_assoc.
Qed.

(** X16. [analyzeDependencies] returns for all lists of records, whatever
    characters their ids have. Each of its edges leads from a record of
    [fields] to a record of [calcs] that has an original formula and another
    id, and an edge is there for a pair exactly when the id of the source,
    without its outer brackets and in brackets again, is found in the
    original formula of the target. *)
Theorem X16_containment_scan_returns (fields calcs : list FieldRecord) :
  analyzeDependencies fields calcs = Ok (containmentEdges fields calcs) /\
  (forall e, In e (containmentEdges fields calcs) <->
     exists s t originalFormula,
       In s fields /\ In t calcs /\
       field_calculation_bk t = Some originalFormula /\
       originalFormula <> EmptyString /\
       field_id s <> field_id t /\
       test_gi (wrap (coreIdentifierOf s)) originalFormula = true /\
       e = {| from := field_caption s; to := field_caption t |}).
Proof.
  split; [apply (containmentTarget_fold fields calcs [])|].
  intros e. unfold containmentEdges, containmentSources. rewrite in_flat_map. split.
  - intros [t [Ht He]].
    destruct (field_calculation_bk t) as [f0|] eqn:Eb; [|contradiction].
    destruct (truthy (Some f0)) eqn:Et; [|contradiction].
    apply in_map_iff in He. destruct He as [s [<- Hs]].
    apply filter_In in Hs. destruct Hs as [Hs Hp].
    apply andb_true_iff in Hp. destruct Hp as [Hid Htest].
    exists s, t, f0. repeat split; try assumption.
    + intros ->. discriminate Et.
    + apply negb_true_iff in Hid. now apply String.eqb_neq.
  - intros [s [t [f0 [Hs [Ht [Eb [Hne [Hid [Htest ->]]]]]]]]].
    exists t. split; [exact Ht|]. rewrite Eb.
    assert (Et : truthy (Some f0) = true).
    { cbn. apply negb_true_iff. now apply String.eqb_neq. }
    rewrite Et. apply in_map_iff. exists s. split; [reflexivity|].
    apply filter_In. split; [exact Hs|].
    apply andb_true_iff. split; [|exact Htest].
    apply negb_true_iff. now apply String.eqb_neq.
Qed.







Lemma replace_from_no_match (lit t b s : string) :
  lit <> EmptyString -> test_gi lit s = false -> replace_from lit t b 0 s = s.
Proof.
  intros Hl. revert b. induction s as [|c r IH]; intros b H.
  - cbn. destruct lit; [contradiction|reflexivity].
  - cbn [test_gi] in H. apply orb_false_iff in H. destruct H as [Hp Hr].
    cbn [replace_from]. rewrite Hp. now rewrite IH.
Qed.

(** X18. The substitution of a key leaves a formula as it is when the test
    of the containment scan does not find the key in it, whatever the
    friendly name of the key. *)
Theorem X18_substitution_needs_a_match (m : JsMap) (formula keyId : string) :
  test_gi (wrap keyId) formula = false ->
  rewriteStep m (Ok formula) keyId = Ok formula.
Proof.
  intros H. rewrite rewriteStep_ok. f_equal. unfold substituteKey.
  destruct (map_get keyId m) as [r|]; [|reflexivity].
  destruct (truthy (Some r)); [|reflexivity].
  apply replace_from_no_match; [apply wrap_nonempty|exact H].
Qed.

(** X18 at the key "Sales" and a formula with the token [[Sales Amount]]. *)
Lemma X18_substitution_needs_a_match_witness :
  test_gi (wrap "Sales") "[Sales Amount]*2" = false /\
  rewriteStep salesMap (Ok "[Sales Amount]*2") "Sales" = Ok "[Sales Amount]*2".
Proof.
  split; [reflexivity|].
  exact (X18_substitution_needs_a_match salesMap "[Sales Amount]*2" "Sales" eq_refl).
Defined.

(* ================================================================== *)
(** ** Further properties: the presentation order, and single tokens   *)
(* ================================================================== *)














(* ================================================================== *)
(** ** Further properties: tokens and edges, ids and sequence numbers  *)
(* ================================================================== *)

(** X22. Every token of the rewritten formula of a deduplicated field,
    other than the caption of the field itself, gives an edge from the
    token to the caption, and a record of the returned field list has the
    token as its caption. *)
Theorem X22_every_token_gives_an_edge (numberSign : string -> Z) (xmlDoc : node)
    (f : FieldRecord) (formula token : string) :
  In f (deduplicatedFields numberSign xmlDoc) ->
  field_calculation f = Some formula ->
  In token (match_tokens 0 formula) ->
  field_caption f <> Some token ->
  exists out,
    extractDataFromTwb numberSign xmlDoc = Ok out /\
    In {| from := Some token; to := field_caption f |} (relationships out) /\
    exists g, In g (fields out) /\ field_caption g = Some token.
Proof.
  intros Hf Ef Ht Hc.
  set (u := deduplicatedFields numberSign xmlDoc) in *.
  exists (assemble u (rawCounter xmlDoc)).
  split; [apply extractDataFromTwb_ok|].
  assert (He : In {| from := Some token; to := field_caption f |} (extractDependencies u)).
  { unfold extractDependencies. apply in_flat_map. exists f. split; [exact Hf|].
    unfold edgesOfField. rewrite Ef.
    assert (Et : truthy (Some formula) = true).
    { destruct formula; [contradiction|reflexivity]. }
    rewrite Et. apply in_map_iff. exists token. split; [reflexivity|].
    apply filter_In. split; [exact Ht|].
    apply negb_true_iff. destruct (opt_eqb (Some token) (field_caption f)) eqn:E;
      [|reflexivity].
    apply opt_eqb_eq in E. congruence. }
  rewrite assemble_relationships, assemble_fields. split; [exact He|].
  destruct (placeholders_close _ (map field_caption u) (rawCounter xmlDoc) _ He) as [G|G];
    apply in_map_iff in G; destruct G as [g [Hg Hin]]; exists g;
    (split; [apply in_or_app; auto|exact Hg]).
Qed.

(** X22 at a calculation that names a field no datasource has. *)
Lemma X22_every_token_witness :
  let f := columnRecord "Sales" "Sales" false 0
             (columnElem "[Twice]" "Twice" (Some "[External Metric]*2"))
             (Elem "datasource" [("name", "Sales")]
                [columnElem "[Twice]" "Twice" (Some "[External Metric]*2")]) in
  In f (deduplicatedFields (fun _ => 0%Z) externalMetric) /\
  field_calculation f = Some "[External Metric]*2" /\
  In "External Metric" (match_tokens 0 "[External Metric]*2") /\
  field_caption f <> Some "External Metric" /\
  exists out,
    extractDataFromTwb (fun _ => 0%Z) externalMetric = Ok out /\
    In {| from := Some "External Metric"; to := field_caption f |} (relationships out) /\
    exists g, In g (fields out) /\ field_caption g = Some "External Metric".
Proof.
  intros f.
  assert (H1 : In f (deduplicatedFields (fun _ => 0%Z) externalMetric))
    by (vm_compute; left; reflexivity).
  assert (H2 : field_calculation f = Some "[External Metric]*2") by reflexivity.
  assert (H3 : In "External Metric" (match_tokens 0 "[External Metric]*2"))
    by (vm_compute; left; reflexivity).
  assert (H4 : field_caption f <> Some "External Metric") by (vm_compute; discriminate).
  repeat (split; [assumption|]).
  exact (X22_every_token_gives_an_edge (fun _ => 0%Z) externalMetric f
           "[External Metric]*2" "External Metric" H1 H2 H3 H4).
Defined.

Lemma match_tokens_no_open (s : string) (n : nat) :
  no_open s = true -> match_tokens n s = [].
Proof.
  revert n. induction s as [|c r IH]; intros n H; [reflexivity|].
  apply no_open_cons in H. destruct H as [Hc Hr].
  cbn [match_tokens]. destruct n; [rewrite Hc|]; now apply IH.
Qed.

Lemma no_close_cons (a : ascii) (s : string) :
  no_close (String a s) = true <-> (a =? "]")%char = false /\ no_close s = true.
Proof.
  unfold no_close. cbn. rewrite andb_true_iff, negb_true_iff. tauto.
Qed.

Lemma match_body_no_close (s : string) : no_close s = true -> match_body s = None.
Proof.
  induction s as [|c r IH]; intros H; [reflexivity|].
  apply no_close_cons in H. destruct H as [Hc Hr].
  cbn [match_body]. now rewrite Hc, (IH Hr).
Qed.

Lemma match_tokens_no_close (s : string) (n : nat) :
  no_close s = true -> match_tokens n s = [].
Proof.
  revert n. induction s as [|c r IH]; intros n H; [reflexivity|].
  apply no_close_cons in H. destruct H as [Hc Hr].
  cbn [match_tokens]. destruct n; [|now apply IH].
  destruct (c =? "[")%char; [|now apply IH].
  now rewrite (match_body_no_close r Hr), IH.
Qed.

(** X23. [extractDependencies] returns no edge for records whose formulas
    are missing, empty, without an opening bracket or without a closing
    bracket. *)
Theorem X23_no_brackets_no_edges (fields : list FieldRecord) :
  (forall f formula, In f fields -> field_calculation f = Some formula ->
                     no_open formula = true \/ no_close formula = true) ->
  extractDependencies fields = [].
Proof.
  intros H. unfold extractDependencies.
  induction fields as [|f fields IH]; [reflexivity|].
  cbn [flat_map].
  assert (E : edgesOfField f = []).
  { unfold edgesOfField. destruct (field_calculation f) as [formula|] eqn:Ef;
      [|reflexivity].
    destruct (truthy (Some formula)); [|reflexivity].
    destruct (H f formula (or_introl eq_refl) Ef) as [Ho|Hc];
      [rewrite (match_tokens_no_open formula 0 Ho)
      |rewrite (match_tokens_no_close formula 0 Hc)]; reflexivity. }
  rewrite E. apply IH. intros g formula Hg. apply H. now right.
Qed.

(** X23 at the raw records of a document with a sum of numbers and a bracket
    that is never closed. *)
Lemma X23_no_brackets_no_edges_witness :
  (forall f formula, In f (rawFields plainFormulas) ->
                     field_calculation f = Some formula ->
                     no_open formula = true \/ no_close formula = true) /\
  extractDependencies (rawFields plainFormulas) = [].
Proof.
  assert (H : forall f formula, In f (rawFields plainFormulas) ->
                field_calculation f = Some formula ->
                no_open formula = true \/ no_close formula = true).
  { intros f formula Hf Ef. vm_compute in Hf.
    destruct Hf as [<-|[<-|[]]]; injection Ef as <-; [left|right]; reflexivity. }
  split; [exact H|].
  exact (X23_no_brackets_no_edges (rawFields plainFormulas) H).
Defined.

Lemma or_str_nonempty (a : option string) (b : string) :
  b <> EmptyString -> or_str a b <> EmptyString.
Proof.
  intros Hb. unfold or_str. destruct a as [s|]; [|exact Hb].
  destruct (String.eqb_spec s ""); [exact Hb|assumption].
Qed.

(** X24. No returned record has an empty id, and a record made from a
    [<column>] has a name and a caption that are not empty, whatever
    attributes the column lacks. *)
Theorem X24_ids_are_not_empty (numberSign : string -> Z) (xmlDoc : node) :
  exists out,
    extractDataFromTwb numberSign xmlDoc = Ok out /\
    forall f, In f (fields out) ->
      field_id f <> EmptyString /\
      (madeFromParam f = false ->
         (exists n, field_name f = Some n /\ n <> EmptyString) /\
         (exists c, field_caption f = Some c /\ c <> EmptyString)).
Proof.
  set (P := fun f : FieldRecord =>
              field_id f <> EmptyString /\
              (madeFromParam f = false ->
                 (exists n, field_name f = Some n /\ n <> EmptyString) /\
                 (exists c, field_caption f = Some c /\ c <> EmptyString))).
  assert (Hraw : Forall P (rawFields xmlDoc)).
  { apply rawFields_all; unfold P.
    - intros dsName dsCaption n col parent.
      cbn [field_id field_name field_caption columnRecord].
      set (fieldId := or_str (getAttribute col "id")
                        (wrap (or_str (getAttribute col "name")
                                      ("col_" ++ string_of_nat n)))).
      assert (H1 : fieldId <> EmptyString) by (apply or_str_nonempty, wrap_nonempty).
      assert (H2 : or_str (getAttribute col "name") fieldId <> EmptyString)
        by now apply or_str_nonempty.
      split; [exact H1|]. intros _. split; eexists; (split; [reflexivity|]);
        [exact H2|now apply or_str_nonempty].
    - intros dsName dsCaption n param _. cbn [field_id paramRecord].
      split; [apply wrap_nonempty|]. intros H. discriminate H. }
  exists (assemble (deduplicatedFields numberSign xmlDoc) (rawCounter xmlDoc)).
  split; [apply extractDataFromTwb_ok|].
  intros f Hf. rewrite assemble_fields in Hf. apply in_app_or in Hf.
  destruct Hf as [Hf|Hf].
  - destruct (deduplicated_from_raw _ _ _ Hf) as [r [Hr ->]].
    rewrite Forall_forall in Hraw. specialize (Hraw r Hr).
    rewrite rewrittenField_frame. exact Hraw.
  - apply placeholders_shape in Hf. destruct Hf as [-> _].
    split; [apply wrap_nonempty|]. intros H. discriminate H.
Qed.

Lemma dedupe_counters_NoDup (seen : list string) (l : list FieldRecord) :
  NoDup (map counter l) -> NoDup (map counter (dedupe seen l)).
Proof.
  revert seen. induction l as [|f l IH]; intros seen H; [constructor|].
  cbn [map] in H. inversion H as [|? ? Hn Hl]; subst.
  cbn [dedupe]. destruct (set_has (field_id f) seen); [now apply IH|].
  cbn [map]. constructor; [|now apply IH].
  intros C. apply Hn. apply in_map_iff in C. destruct C as [g [Hg Hin]].
  rewrite <- Hg. apply in_map. now apply dedupe_In in Hin.
Qed.

(** X25. The sequence numbers of the returned records are all different,
    placeholders included; unlike the id, the sequence number names one
    record of the returned list. *)
Theorem X25_sequence_numbers_unique (numberSign : string -> Z) (xmlDoc : node) :
  exists out,
    extractDataFromTwb numberSign xmlDoc = Ok out /\
    NoDup (map counter (fields out)).
Proof.
  exists (assemble (deduplicatedFields numberSign xmlDoc) (rawCounter xmlDoc)).
  split; [apply extractDataFromTwb_ok|].
  rewrite assemble_fields, map_app. apply NoDup_app.
  - unfold deduplicatedFields, uniqueFieldsOf.
    eapply Permutation_NoDup;
      [apply Permutation_map; symmetry; apply js_sort_perm|].
    apply dedupe_counters_NoDup.
    eapply Permutation_NoDup;
      [apply Permutation_map; symmetry; apply js_sort_perm|].
    rewrite rewrittenFields_counters. apply seq_NoDup.
  - rewrite placeholders_counters. apply seq_NoDup.
  - intros n Hn Hp. apply in_map_iff in Hn. destruct Hn as [f [<- Hf]].
    destruct (deduplicated_from_raw _ _ _ Hf) as [r [Hr ->]].
    rewrite rewrittenField_counter in Hp.
    rewrite placeholders_counters in Hp. apply in_seq in Hp.
    pose proof (raw_counter_lt xmlDoc r Hr). lia.
Qed.
